(** * The Asahi DRM userspace ABI ([include/uapi/drm/asahi_drm.h])

    A shallow embedding of the header: its constants, its enumerations with
    the values the C rules give them, its structure declarations with the
    layout a C compiler computes for them, and the ioctl table.  The parts
    of the protocol the header only declares (the kernel side of each
    operation) are modelled separately, further down, from the protocol
    description. *)

From Stdlib Require Import ZArith Lia String List Bool.
From stdpp Require Import gmap strings list fin_maps.

Local Open Scope string_scope.
Local Open Scope Z_scope.

(** ** Fixed-width integers *)

Definition wrap64 (x : Z) : Z := x mod 2 ^ 64.

Definition is_u64 (x : Z) : Prop := 0 <= x < 2 ^ 64.

(** ** Constants *)

Definition DRM_ASAHI_UNSTABLE_UABI_VERSION : Z := 4.

Definition DRM_ASAHI_GET_PARAM : Z := 0x00.
Definition DRM_ASAHI_VM_CREATE : Z := 0x01.
Definition DRM_ASAHI_VM_DESTROY : Z := 0x02.
Definition DRM_ASAHI_GEM_CREATE : Z := 0x03.
Definition DRM_ASAHI_GEM_MMAP_OFFSET : Z := 0x04.
Definition DRM_ASAHI_GEM_BIND : Z := 0x05.
Definition DRM_ASAHI_QUEUE_CREATE : Z := 0x06.
Definition DRM_ASAHI_QUEUE_DESTROY : Z := 0x07.
Definition DRM_ASAHI_SUBMIT : Z := 0x08.

Definition ASAHI_GEM_WRITEBACK : Z := Z.shiftl 1 0.

Definition ASAHI_BIND_READ : Z := Z.shiftl 1 0.
Definition ASAHI_BIND_WRITE : Z := Z.shiftl 1 1.

Definition ASAHI_MAX_ATTACHMENTS : Z := 16.

Definition ASAHI_ATTACHMENT_C : Z := 0.
Definition ASAHI_ATTACHMENT_Z : Z := 1.
Definition ASAHI_ATTACHMENT_S : Z := 2.

Definition ASAHI_CMDBUF_NO_CLEAR_PIPELINE_TEXTURES : Z := Z.shiftl 1 0.
Definition ASAHI_CMDBUF_SET_WHEN_RELOADING_Z_OR_S : Z := Z.shiftl 1 1.
Definition ASAHI_CMDBUF_MEMORYLESS_RTS_USED : Z := Z.shiftl 1 2.
Definition ASAHI_CMDBUF_PROCESS_EMPTY_TILES : Z := Z.shiftl 1 3.

(** The four [ASAHI_CMDBUF_*] macros, in the order of the header. *)
Definition ASAHI_CMDBUF_flags : list Z :=
  [ ASAHI_CMDBUF_NO_CLEAR_PIPELINE_TEXTURES;
    ASAHI_CMDBUF_SET_WHEN_RELOADING_Z_OR_S;
    ASAHI_CMDBUF_MEMORYLESS_RTS_USED;
    ASAHI_CMDBUF_PROCESS_EMPTY_TILES ].

(** ** Flag words

    What C code does with a flag macro: [w | F], [w & ~F], [w & F].  The
    macros are written [1L << n] (type [long]) or [1UL << n] (type
    [unsigned long]), and C computes [~F] in that type before it meets the
    word.  For a [long] it is the negative number [-F - 1], which
    sign-extends to the width of the word.  For an [unsigned long] of
    [long_bits] bits it is the [long_bits]-bit complement, which
    zero-extends: where [long] has 32 bits it has no bit above bit 31, and
    [w & ~F] then clears the bits 32 to 63 of a 64-bit word as well. *)

Inductive long_suffix : Type :=
  | SuffixL
  | SuffixUL.

(** The widths of [long] on the ABIs of the driver. *)
Definition long_widths : list Z := [32; 64].

(** The value of [~F]. *)
Definition c_complement (sfx : long_suffix) (long_bits f : Z) : Z :=
  match sfx with
  | SuffixL => Z.lnot f
  | SuffixUL => Z.lnot f mod 2 ^ long_bits
  end.

Definition flag_set (w f : Z) : Z := Z.lor w f.
Definition flag_clear (sfx : long_suffix) (long_bits w f : Z) : Z :=
  Z.land w (c_complement sfx long_bits f).
Definition flag_test (w f : Z) : bool := negb (Z.land w f =? 0).

(** ** Enumerations

    A C enumeration is a list of enumerators, each with an optional
    initialiser.  An enumerator without one takes the previous value plus
    one, the first takes 0. *)

Fixpoint enum_assign {A : Type} (next : Z) (d : list (A * option Z)) : list (A * Z) :=
  match d with
  | [] => []
  | (x, None) :: r => (x, next) :: enum_assign (next + 1) r
  | (x, Some v) :: r => (x, v) :: enum_assign (v + 1) r
  end.

Definition enum_values {A : Type} (d : list (A * option Z)) : list (A * Z) :=
  enum_assign 0 d.

Fixpoint enum_lookup {A : Type} `{EqDecision A} (x : A) (l : list (A * Z)) : option Z :=
  match l with
  | [] => None
  | (y, v) :: r => if decide (x = y) then Some v else enum_lookup x r
  end.

Fixpoint enum_decode {A : Type} (v : Z) (l : list (A * Z)) : option A :=
  match l with
  | [] => None
  | (y, w) :: r => if v =? w then Some y else enum_decode v r
  end.

Inductive drm_asahi_param : Type :=
  | DRM_ASAHI_PARAM_UNSTABLE_UABI_VERSION
  | DRM_ASAHI_PARAM_GPU_GENERATION
  | DRM_ASAHI_PARAM_GPU_VARIANT
  | DRM_ASAHI_PARAM_GPU_REVISION
  | DRM_ASAHI_PARAM_CHIP_ID
  | DRM_ASAHI_PARAM_FEAT_COMPAT
  | DRM_ASAHI_PARAM_FEAT_INCOMPAT
  | DRM_ASAHI_PARAM_VM_PAGE_SIZE
  | DRM_ASAHI_PARAM_VM_USER_START
  | DRM_ASAHI_PARAM_VM_USER_END
  | DRM_ASAHI_PARAM_VM_SHADER_START
  | DRM_ASAHI_PARAM_VM_SHADER_END.

#[global] Instance drm_asahi_param_eq_dec : EqDecision drm_asahi_param.
Proof. solve_decision. Defined.

Definition drm_asahi_param_decl : list (drm_asahi_param * option Z) :=
  [ (DRM_ASAHI_PARAM_UNSTABLE_UABI_VERSION, None);
    (DRM_ASAHI_PARAM_GPU_GENERATION, None);
    (DRM_ASAHI_PARAM_GPU_VARIANT, None);
    (DRM_ASAHI_PARAM_GPU_REVISION, None);
    (DRM_ASAHI_PARAM_CHIP_ID, None);
    (DRM_ASAHI_PARAM_FEAT_COMPAT, None);
    (DRM_ASAHI_PARAM_FEAT_INCOMPAT, None);
    (DRM_ASAHI_PARAM_VM_PAGE_SIZE, None);
    (DRM_ASAHI_PARAM_VM_USER_START, None);
    (DRM_ASAHI_PARAM_VM_USER_END, None);
    (DRM_ASAHI_PARAM_VM_SHADER_START, None);
    (DRM_ASAHI_PARAM_VM_SHADER_END, None) ].

Definition drm_asahi_param_value (p : drm_asahi_param) : Z :=
  default 0 (enum_lookup p (enum_values drm_asahi_param_decl)).

Definition drm_asahi_param_of_Z (id : Z) : option drm_asahi_param :=
  enum_decode id (enum_values drm_asahi_param_decl).

Inductive drm_asahi_feat_incompat : Type :=
  | DRM_ASAHI_FEAT_MANDATORY_ZS_COMPRESSION.

#[global] Instance drm_asahi_feat_incompat_eq_dec : EqDecision drm_asahi_feat_incompat.
Proof. solve_decision. Defined.

Definition drm_asahi_feat_incompat_decl : list (drm_asahi_feat_incompat * option Z) :=
  [ (DRM_ASAHI_FEAT_MANDATORY_ZS_COMPRESSION, Some (Z.shiftl 1 0)) ].

Inductive drm_asahi_queue_type : Type :=
  | DRM_ASAHI_QUEUE_RENDER
  | DRM_ASAHI_QUEUE_COMPUTE.

#[global] Instance drm_asahi_queue_type_eq_dec : EqDecision drm_asahi_queue_type.
Proof. solve_decision. Defined.

Definition drm_asahi_queue_type_decl : list (drm_asahi_queue_type * option Z) :=
  [ (DRM_ASAHI_QUEUE_RENDER, Some 0);
    (DRM_ASAHI_QUEUE_COMPUTE, Some 1) ].

Definition drm_asahi_queue_type_value (t : drm_asahi_queue_type) : Z :=
  default 0 (enum_lookup t (enum_values drm_asahi_queue_type_decl)).

Definition drm_asahi_queue_type_of_Z (v : Z) : option drm_asahi_queue_type :=
  enum_decode v (enum_values drm_asahi_queue_type_decl).

Inductive drm_asahi_cmd_type : Type :=
  | DRM_ASAHI_CMD_RENDER
  | DRM_ASAHI_CMD_BLIT
  | DRM_ASAHI_CMD_COMPUTE.

#[global] Instance drm_asahi_cmd_type_eq_dec : EqDecision drm_asahi_cmd_type.
Proof. solve_decision. Defined.

Definition drm_asahi_cmd_type_decl : list (drm_asahi_cmd_type * option Z) :=
  [ (DRM_ASAHI_CMD_RENDER, Some 0);
    (DRM_ASAHI_CMD_BLIT, Some 1);
    (DRM_ASAHI_CMD_COMPUTE, Some 2) ].

Definition drm_asahi_cmd_type_value (t : drm_asahi_cmd_type) : Z :=
  default 0 (enum_lookup t (enum_values drm_asahi_cmd_type_decl)).

Definition drm_asahi_cmd_type_of_Z (v : Z) : option drm_asahi_cmd_type :=
  enum_decode v (enum_values drm_asahi_cmd_type_decl).

(** ** C types and structure layout

    The header uses two scalar types, [__u32] and [__u64], one structure
    nested in another, and one array.  Sizes are fixed by the types; the
    alignment of [__u64] is the one thing the ABI decides (8 on the 64-bit
    targets of the driver, 4 on some 32-bit ones), so the layout functions
    take it as [a64]. *)

Inductive ctype : Type :=
  | U32
  | U64
  | TArray (elem : ctype) (n : nat)
  | TStruct (members : list (string * ctype)).

Definition align_up (off a : Z) : Z := (off + a - 1) / a * a.

Fixpoint alignof (a64 : Z) (t : ctype) : Z :=
  match t with
  | U32 => 4
  | U64 => a64
  | TArray e _ => alignof a64 e
  | TStruct ms =>
      (fix go (l : list (string * ctype)) : Z :=
         match l with
         | [] => 1
         | (_, ft) :: r => Z.max (alignof a64 ft) (go r)
         end) ms
  end.

Fixpoint sizeof (a64 : Z) (t : ctype) : Z :=
  match t with
  | U32 => 4
  | U64 => 8
  | TArray e n => Z.of_nat n * sizeof a64 e
  | TStruct ms =>
      align_up
        ((fix go (l : list (string * ctype)) (off : Z) : Z :=
            match l with
            | [] => off
            | (_, ft) :: r => go r (align_up off (alignof a64 ft) + sizeof a64 ft)
            end) ms 0)
        (alignof a64 t)
  end.

(** [offsetof] for every member, in declaration order. *)
Fixpoint member_offsets (a64 : Z) (off : Z) (ms : list (string * ctype)) : list (string * Z) :=
  match ms with
  | [] => []
  | (name, ft) :: r =>
      let o := align_up off (alignof a64 ft) in
      (name, o) :: member_offsets a64 (o + sizeof a64 ft) r
  end.

Fixpoint assoc_lookup {A : Type} (name : string) (l : list (string * A)) : option A :=
  match l with
  | [] => None
  | (n, v) :: r => if String.eqb name n then Some v else assoc_lookup name r
  end.

Definition offsetof (a64 : Z) (ms : list (string * ctype)) (name : string) : option Z :=
  assoc_lookup name (member_offsets a64 0 ms).

(** A member of an argument structure, with what its doc comment in the
    header says about it: [f_mbz] is set for the members documented as
    "MBZ" or "Must be zero". *)
Record field : Type := Field {
  f_name : string;
  f_type : ctype;
  f_mbz : bool
}.

Definition members (fs : list field) : list (string * ctype) :=
  map (fun f => (f_name f, f_type f)) fs.

Definition struct_of (fs : list field) : ctype := TStruct (members fs).

Definition is_scalar (t : ctype) : bool :=
  match t with
  | U32 | U64 => true
  | _ => false
  end.

(** ** Structure declarations *)

Definition drm_asahi_get_param_fields : list field :=
  [ Field "param" U32 false;
    Field "pad" U32 true;
    Field "value" U64 false ].

Definition drm_asahi_vm_create_fields : list field :=
  [ Field "vm_id" U32 false;
    Field "pad" U32 true ].

Definition drm_asahi_vm_destroy_fields : list field :=
  [ Field "vm_id" U32 false;
    Field "pad" U32 true ].

Definition drm_asahi_gem_create_fields : list field :=
  [ Field "size" U64 false;
    Field "flags" U32 false;
    Field "handle" U32 false ].

Definition drm_asahi_gem_mmap_offset_fields : list field :=
  [ Field "handle" U32 false;
    Field "flags" U32 true;
    Field "offset" U64 false ].

Definition drm_asahi_gem_bind_fields : list field :=
  [ Field "handle" U32 false;
    Field "vm_id" U32 false;
    Field "offset" U64 false;
    Field "range" U64 false;
    Field "addr" U64 false;
    Field "flags" U32 false ].

Definition drm_asahi_queue_create_fields : list field :=
  [ Field "vm_id" U32 false;
    Field "queue_type" U32 false;
    Field "priority" U32 false;
    Field "flags" U32 true;
    Field "queue_id" U32 false ].

Definition drm_asahi_queue_destroy_fields : list field :=
  [ Field "queue_id" U32 false ].

Definition drm_asahi_submit_fields : list field :=
  [ Field "queue_id" U32 false;
    Field "cmd_type" U32 false;
    Field "cmd_buffer" U64 false;
    Field "flags" U32 true;
    Field "in_sync_count" U32 false;
    Field "in_syncs" U64 false;
    Field "out_sync" U32 false ].

Definition drm_asahi_attachment_members : list (string * ctype) :=
  [ ("type", U32);
    ("size", U32);
    ("pointer", U64) ].

Definition drm_asahi_cmd_render_members : list (string * ctype) :=
  [ ("flags", U64);
    ("encoder_ptr", U64);
    ("depth_buffer_1", U64);
    ("depth_buffer_2", U64);
    ("depth_buffer_3", U64);
    ("depth_meta_buffer_1", U64);
    ("depth_meta_buffer_2", U64);
    ("depth_meta_buffer_3", U64);
    ("stencil_buffer_1", U64);
    ("stencil_buffer_2", U64);
    ("stencil_buffer_3", U64);
    ("stencil_meta_buffer_1", U64);
    ("stencil_meta_buffer_2", U64);
    ("stencil_meta_buffer_3", U64);
    ("scissor_array", U64);
    ("depth_bias_array", U64);
    ("visibility_result_buffer", U64);
    ("zls_ctrl", U64);
    ("ppp_multisamplectl", U64);
    ("ppp_ctrl", U32);
    ("fb_width", U32);
    ("fb_height", U32);
    ("utile_width", U32);
    ("utile_height", U32);
    ("samples", U32);
    ("layers", U32);
    ("encoder_id", U32);
    ("cmd_ta_id", U32);
    ("cmd_3d_id", U32);
    ("iogpu_unk_49", U32);
    ("iogpu_unk_212", U32);
    ("iogpu_unk_214", U32);
    ("merge_upper_x", U32);
    ("merge_upper_y", U32);
    ("load_pipeline", U32);
    ("load_pipeline_bind", U32);
    ("store_pipeline", U32);
    ("store_pipeline_bind", U32);
    ("partial_reload_pipeline", U32);
    ("partial_reload_pipeline_bind", U32);
    ("partial_store_pipeline", U32);
    ("partial_store_pipeline_bind", U32);
    ("depth_dimensions", U32);
    ("isp_bgobjdepth", U32);
    ("isp_bgobjvals", U32);
    ("attachments", TArray (TStruct drm_asahi_attachment_members) (Z.to_nat ASAHI_MAX_ATTACHMENTS));
    ("attachment_count", U32) ].

(** ** The ioctl table

    [DRM_IOWR] encodes a request whose argument is copied in and back out,
    [DRM_IOW] one whose argument is only copied in.  The number is
    [DRM_COMMAND_BASE] plus the opcode; [drm.h] defines the base and is not
    part of this header, so the table keeps the opcode. *)

Inductive ioc_dir : Type := DRM_IOW | DRM_IOWR.

#[global] Instance ioc_dir_eq_dec : EqDecision ioc_dir.
Proof. solve_decision. Defined.

Inductive drm_ioctl_asahi : Type :=
  | DRM_IOCTL_ASAHI_GET_PARAM
  | DRM_IOCTL_ASAHI_VM_CREATE
  | DRM_IOCTL_ASAHI_VM_DESTROY
  | DRM_IOCTL_ASAHI_GEM_CREATE
  | DRM_IOCTL_ASAHI_GEM_MMAP_OFFSET
  | DRM_IOCTL_ASAHI_GEM_BIND
  | DRM_IOCTL_ASAHI_QUEUE_CREATE
  | DRM_IOCTL_ASAHI_QUEUE_DESTROY
  | DRM_IOCTL_ASAHI_SUBMIT.

#[global] Instance drm_ioctl_asahi_eq_dec : EqDecision drm_ioctl_asahi.
Proof. solve_decision. Defined.

Definition drm_ioctl_asahi_all : list drm_ioctl_asahi :=
  [ DRM_IOCTL_ASAHI_GET_PARAM;
    DRM_IOCTL_ASAHI_VM_CREATE;
    DRM_IOCTL_ASAHI_VM_DESTROY;
    DRM_IOCTL_ASAHI_GEM_CREATE;
    DRM_IOCTL_ASAHI_GEM_MMAP_OFFSET;
    DRM_IOCTL_ASAHI_GEM_BIND;
    DRM_IOCTL_ASAHI_QUEUE_CREATE;
    DRM_IOCTL_ASAHI_QUEUE_DESTROY;
    DRM_IOCTL_ASAHI_SUBMIT ].

Definition ioctl_dir (i : drm_ioctl_asahi) : ioc_dir :=
  match i with
  | DRM_IOCTL_ASAHI_GET_PARAM => DRM_IOWR
  | DRM_IOCTL_ASAHI_VM_CREATE => DRM_IOWR
  | DRM_IOCTL_ASAHI_VM_DESTROY => DRM_IOW
  | DRM_IOCTL_ASAHI_GEM_CREATE => DRM_IOWR
  | DRM_IOCTL_ASAHI_GEM_MMAP_OFFSET => DRM_IOWR
  | DRM_IOCTL_ASAHI_GEM_BIND => DRM_IOW
  | DRM_IOCTL_ASAHI_QUEUE_CREATE => DRM_IOWR
  | DRM_IOCTL_ASAHI_QUEUE_DESTROY => DRM_IOW
  | DRM_IOCTL_ASAHI_SUBMIT => DRM_IOW
  end.

Definition ioctl_opcode (i : drm_ioctl_asahi) : Z :=
  match i with
  | DRM_IOCTL_ASAHI_GET_PARAM => DRM_ASAHI_GET_PARAM
  | DRM_IOCTL_ASAHI_VM_CREATE => DRM_ASAHI_VM_CREATE
  | DRM_IOCTL_ASAHI_VM_DESTROY => DRM_ASAHI_VM_DESTROY
  | DRM_IOCTL_ASAHI_GEM_CREATE => DRM_ASAHI_GEM_CREATE
  | DRM_IOCTL_ASAHI_GEM_MMAP_OFFSET => DRM_ASAHI_GEM_MMAP_OFFSET
  | DRM_IOCTL_ASAHI_GEM_BIND => DRM_ASAHI_GEM_BIND
  | DRM_IOCTL_ASAHI_QUEUE_CREATE => DRM_ASAHI_QUEUE_CREATE
  | DRM_IOCTL_ASAHI_QUEUE_DESTROY => DRM_ASAHI_QUEUE_DESTROY
  | DRM_IOCTL_ASAHI_SUBMIT => DRM_ASAHI_SUBMIT
  end.

Definition ioctl_arg (i : drm_ioctl_asahi) : list field :=
  match i with
  | DRM_IOCTL_ASAHI_GET_PARAM => drm_asahi_get_param_fields
  | DRM_IOCTL_ASAHI_VM_CREATE => drm_asahi_vm_create_fields
  | DRM_IOCTL_ASAHI_VM_DESTROY => drm_asahi_vm_destroy_fields
  | DRM_IOCTL_ASAHI_GEM_CREATE => drm_asahi_gem_create_fields
  | DRM_IOCTL_ASAHI_GEM_MMAP_OFFSET => drm_asahi_gem_mmap_offset_fields
  | DRM_IOCTL_ASAHI_GEM_BIND => drm_asahi_gem_bind_fields
  | DRM_IOCTL_ASAHI_QUEUE_CREATE => drm_asahi_queue_create_fields
  | DRM_IOCTL_ASAHI_QUEUE_DESTROY => drm_asahi_queue_destroy_fields
  | DRM_IOCTL_ASAHI_SUBMIT => drm_asahi_submit_fields
  end.

(** ** Structure values

    One record per structure of the header, members under their own names.
    Every member holds the integer stored in it. *)

Module drm_asahi_get_param.
Record t : Type := mk { param : Z; pad : Z; value : Z }.
End drm_asahi_get_param.

Module drm_asahi_vm_create.
Record t : Type := mk { vm_id : Z; pad : Z }.
End drm_asahi_vm_create.

Module drm_asahi_vm_destroy.
Record t : Type := mk { vm_id : Z; pad : Z }.
End drm_asahi_vm_destroy.

Module drm_asahi_gem_create.
Record t : Type := mk { size : Z; flags : Z; handle : Z }.
End drm_asahi_gem_create.

Module drm_asahi_gem_mmap_offset.
Record t : Type := mk { handle : Z; flags : Z; offset : Z }.
End drm_asahi_gem_mmap_offset.

Module drm_asahi_gem_bind.
Record t : Type := mk {
  handle : Z;
  vm_id : Z;
  offset : Z;
  range : Z;
  addr : Z;
  flags : Z
}.
End drm_asahi_gem_bind.

Module drm_asahi_queue_create.
Record t : Type := mk {
  vm_id : Z;
  queue_type : Z;
  priority : Z;
  flags : Z;
  queue_id : Z
}.
End drm_asahi_queue_create.

Module drm_asahi_queue_destroy.
Record t : Type := mk { queue_id : Z }.
End drm_asahi_queue_destroy.

Module drm_asahi_submit.
Record t : Type := mk {
  queue_id : Z;
  cmd_type : Z;
  cmd_buffer : Z;
  flags : Z;
  in_sync_count : Z;
  in_syncs : Z;
  out_sync : Z
}.
End drm_asahi_submit.

Module drm_asahi_attachment.
Record t : Type := mk { type : Z; size : Z; pointer : Z }.
End drm_asahi_attachment.

Module drm_asahi_cmd_render.
Record t : Type := mk {
  flags : Z;
  encoder_ptr : Z;
  depth_buffer_1 : Z;
  depth_buffer_2 : Z;
  depth_buffer_3 : Z;
  depth_meta_buffer_1 : Z;
  depth_meta_buffer_2 : Z;
  depth_meta_buffer_3 : Z;
  stencil_buffer_1 : Z;
  stencil_buffer_2 : Z;
  stencil_buffer_3 : Z;
  stencil_meta_buffer_1 : Z;
  stencil_meta_buffer_2 : Z;
  stencil_meta_buffer_3 : Z;
  scissor_array : Z;
  depth_bias_array : Z;
  visibility_result_buffer : Z;
  zls_ctrl : Z;
  ppp_multisamplectl : Z;
  ppp_ctrl : Z;
  fb_width : Z;
  fb_height : Z;
  utile_width : Z;
  utile_height : Z;
  samples : Z;
  layers : Z;
  encoder_id : Z;
  cmd_ta_id : Z;
  cmd_3d_id : Z;
  iogpu_unk_49 : Z;
  iogpu_unk_212 : Z;
  iogpu_unk_214 : Z;
  merge_upper_x : Z;
  merge_upper_y : Z;
  load_pipeline : Z;
  load_pipeline_bind : Z;
  store_pipeline : Z;
  store_pipeline_bind : Z;
  partial_reload_pipeline : Z;
  partial_reload_pipeline_bind : Z;
  partial_store_pipeline : Z;
  partial_store_pipeline_bind : Z;
  depth_dimensions : Z;
  isp_bgobjdepth : Z;
  isp_bgobjvals : Z;
  attachments : list drm_asahi_attachment.t;
  attachment_count : Z
}.
End drm_asahi_cmd_render.

(** ** The operation table of the protocol description

    The description lists, per operation, the request and the response
    fields in words.  [spec_request] and [spec_response] follow that table
    row by row; [carried_by] names the structure members that hold each
    listed field. *)

Inductive spec_field : Type :=
  | SParamId
  | SValue64
  | SVmId
  | SSize
  | SFlags
  | SFlagsZero
  | SHandle
  | SOffsetToken
  | SOffset
  | SRange
  | SAddr
  | SQueueType
  | SPriority
  | SQueueId
  | SCmdType
  | SCmdBufferPointer
  | SInSyncHandles
  | SOutSyncHandle.

Definition spec_request (i : drm_ioctl_asahi) : list spec_field :=
  match i with
  | DRM_IOCTL_ASAHI_GET_PARAM => [SParamId]
  | DRM_IOCTL_ASAHI_VM_CREATE => []
  | DRM_IOCTL_ASAHI_VM_DESTROY => [SVmId]
  | DRM_IOCTL_ASAHI_GEM_CREATE => [SSize; SFlags]
  | DRM_IOCTL_ASAHI_GEM_MMAP_OFFSET => [SHandle; SFlagsZero]
  | DRM_IOCTL_ASAHI_GEM_BIND => [SHandle; SVmId; SOffset; SRange; SAddr; SFlags]
  | DRM_IOCTL_ASAHI_QUEUE_CREATE => [SVmId; SQueueType; SPriority]
  | DRM_IOCTL_ASAHI_QUEUE_DESTROY => [SQueueId]
  | DRM_IOCTL_ASAHI_SUBMIT =>
      [SQueueId; SCmdType; SCmdBufferPointer; SFlagsZero; SInSyncHandles; SOutSyncHandle]
  end.

Definition spec_response (i : drm_ioctl_asahi) : list spec_field :=
  match i with
  | DRM_IOCTL_ASAHI_GET_PARAM => [SValue64]
  | DRM_IOCTL_ASAHI_VM_CREATE => [SVmId]
  | DRM_IOCTL_ASAHI_VM_DESTROY => []
  | DRM_IOCTL_ASAHI_GEM_CREATE => [SHandle]
  | DRM_IOCTL_ASAHI_GEM_MMAP_OFFSET => [SOffsetToken]
  | DRM_IOCTL_ASAHI_GEM_BIND => []
  | DRM_IOCTL_ASAHI_QUEUE_CREATE => [SQueueId]
  | DRM_IOCTL_ASAHI_QUEUE_DESTROY => []
  | DRM_IOCTL_ASAHI_SUBMIT => []
  end.

Definition carried_by (f : spec_field) : list string :=
  match f with
  | SParamId => ["param"]
  | SValue64 => ["value"]
  | SVmId => ["vm_id"]
  | SSize => ["size"]
  | SFlags => ["flags"]
  | SFlagsZero => ["flags"]
  | SHandle => ["handle"]
  | SOffsetToken => ["offset"]
  | SOffset => ["offset"]
  | SRange => ["range"]
  | SAddr => ["addr"]
  | SQueueType => ["queue_type"]
  | SPriority => ["priority"]
  | SQueueId => ["queue_id"]
  | SCmdType => ["cmd_type"]
  | SCmdBufferPointer => ["cmd_buffer"]
  | SInSyncHandles => ["in_sync_count"; "in_syncs"]
  | SOutSyncHandle => ["out_sync"]
  end.

(** The members the table accounts for, request first. *)
Definition table_members (i : drm_ioctl_asahi) : list string :=
  concat (map carried_by (spec_request i ++ spec_response i)).

Definition name_in (l : list string) (n : string) : bool :=
  existsb (String.eqb n) l.

Definition listed (i : drm_ioctl_asahi) (f : field) : bool :=
  name_in (table_members i) (f_name f).

(** The members of an argument structure the table does not mention. *)
Definition unlisted_members (i : drm_ioctl_asahi) : list field :=
  filter (fun f => listed i f = false) (ioctl_arg i).

(** ** The render command buffer as the description words it

    The description of the render descriptor enumerates: the frame and tile
    dimensions, four pipeline references each with its bind word, the depth
    and stencil buffers and their metadata buffers in three slots each, the
    control flags, and the attachment array with its count. *)

Definition spec_render_dimensions : list string :=
  [ "fb_width"; "fb_height"; "utile_width"; "utile_height"; "samples"; "layers" ].

Definition spec_render_phases : list string :=
  [ "load"; "store"; "partial_reload"; "partial_store" ].

Definition phase_members (phase : string) : list string :=
  [ phase ++ "_pipeline"; phase ++ "_pipeline_bind" ].

Definition spec_render_buffers : list string :=
  [ "depth_buffer"; "depth_meta_buffer"; "stencil_buffer"; "stencil_meta_buffer" ].

Definition slot_members (buffer : string) : list string :=
  [ buffer ++ "_1"; buffer ++ "_2"; buffer ++ "_3" ].

Definition spec_render_members : list string :=
  ["flags"]
  ++ concat (map slot_members spec_render_buffers)
  ++ spec_render_dimensions
  ++ concat (map phase_members spec_render_phases)
  ++ ["attachments"; "attachment_count"].

(** The declaration cut down to the members the description enumerates,
    in the order of the header. *)
Definition spec_only_render_members : list (string * ctype) :=
  filter (fun m => name_in spec_render_members (fst m) = true) drm_asahi_cmd_render_members.

(** The members of the header the description does not enumerate. *)
Definition unlisted_render_members : list (string * ctype) :=
  filter (fun m => name_in spec_render_members (fst m) = false) drm_asahi_cmd_render_members.

Local Close Scope string_scope.

(** * The kernel side of the protocol

    The header declares the argument structures; the code that serves the
    requests is not part of it.  What follows models that side from the
    protocol description: one function per operation over an explicit
    session state, each returning a result and the state after the call. *)

(** Modelled from the spec: the error taxonomy of the description (the
    header has no error codes of its own). *)
Inductive error : Type :=
  | InvalidArgument
  | InvalidSize
  | OutOfBounds
  | AddressOutOfRange
  | RangeConflict
  | UnknownVm
  | UnknownQueue
  | UnknownHandle
  | InvalidPriority
  | CommandTypeMismatch
  | UnboundAddress
  | TooManyAttachments
  | VmInUse
  | QueueBusy
  | UnknownParameter.

#[global] Instance error_eq_dec : EqDecision error.
Proof. solve_decision. Defined.

Inductive result (A : Type) : Type :=
  | Ok (a : A)
  | Err (e : error).

Arguments Ok {A} a.
Arguments Err {A} e.

Definition is_err {A : Type} (r : result A) : bool :=
  match r with
  | Ok _ => false
  | Err _ => true
  end.

(** Modelled from the spec: the immutable device facts behind the
    parameter query (the serving code is absent from the header). *)
Record DeviceParams : Type := {
  gpu_generation : Z;
  gpu_variant : Z;
  gpu_revision : Z;
  chip_id : Z;
  feat_compat : Z;
  feat_incompat : Z;
  vm_page_size : Z;
  vm_user_start : Z;
  vm_user_end : Z;
  vm_shader_start : Z;
  vm_shader_end : Z
}.

(** Modelled from the spec: the value each parameter id stands for; the
    version parameter reports the constant of the header. *)
Definition param_value (d : DeviceParams) (p : drm_asahi_param) : Z :=
  match p with
  | DRM_ASAHI_PARAM_UNSTABLE_UABI_VERSION => DRM_ASAHI_UNSTABLE_UABI_VERSION
  | DRM_ASAHI_PARAM_GPU_GENERATION => gpu_generation d
  | DRM_ASAHI_PARAM_GPU_VARIANT => gpu_variant d
  | DRM_ASAHI_PARAM_GPU_REVISION => gpu_revision d
  | DRM_ASAHI_PARAM_CHIP_ID => chip_id d
  | DRM_ASAHI_PARAM_FEAT_COMPAT => feat_compat d
  | DRM_ASAHI_PARAM_FEAT_INCOMPAT => feat_incompat d
  | DRM_ASAHI_PARAM_VM_PAGE_SIZE => vm_page_size d
  | DRM_ASAHI_PARAM_VM_USER_START => vm_user_start d
  | DRM_ASAHI_PARAM_VM_USER_END => vm_user_end d
  | DRM_ASAHI_PARAM_VM_SHADER_START => vm_shader_start d
  | DRM_ASAHI_PARAM_VM_SHADER_END => vm_shader_end d
  end.

(** Modelled from the spec: a memory object of the data model (size and
    creation flags, found under its handle). *)
Record MemoryObject : Type := {
  mo_size : Z;
  mo_flags : Z
}.

(** Modelled from the spec: a binding of the data model, a range of an
    object mapped at a GPU address of one VM with access rights. *)
Record Binding : Type := {
  bd_handle : Z;
  bd_offset : Z;
  bd_range : Z;
  bd_addr : Z;
  bd_flags : Z
}.

(** Modelled from the spec: a submission of the data model, one accepted
    unit of work.  [sub_seq] is the position of the submit call among all
    accepted submit calls of the session. *)
Record Submission : Type := {
  sub_seq : Z;
  sub_cmd_type : drm_asahi_cmd_type;
  sub_cmd_buffer : Z;
  sub_in_syncs : list Z;
  sub_out_sync : Z
}.

(** Modelled from the spec: a queue of the data model, bound to one VM,
    with its type, its priority and the submissions that wait in it, oldest
    first. *)
Record Queue : Type := {
  q_vm : Z;
  q_type : drm_asahi_queue_type;
  q_priority : Z;
  q_pending : list Submission
}.

(** Modelled from the spec: the state the operations share.  The three
    handle tables, the binding table of each VM (in [vms], one list of
    bindings per live VM), the signalled sync objects, and two logs: the
    accepted submissions in submit order and the executed ones in the order
    their effects became observable. *)
Record session : Type := {
  dev : DeviceParams;
  objects : gmap Z MemoryObject;
  vms : gmap Z (list Binding);
  queues : gmap Z Queue;
  next_handle : Z;
  next_vm : Z;
  next_queue : Z;
  next_seq : Z;
  signaled : gset Z;
  submitted : list (Z * Submission);
  retired : list (Z * Submission)
}.

Definition initial (d : DeviceParams) : session :=
  {| dev := d; objects := ∅; vms := ∅; queues := ∅;
     next_handle := 1; next_vm := 1; next_queue := 1; next_seq := 0;
     signaled := ∅; submitted := []; retired := [] |}.

Definition set_objects (s : session) (o : gmap Z MemoryObject) (n : Z) : session :=
  {| dev := dev s; objects := o; vms := vms s; queues := queues s;
     next_handle := n; next_vm := next_vm s; next_queue := next_queue s;
     next_seq := next_seq s; signaled := signaled s;
     submitted := submitted s; retired := retired s |}.

Definition set_vms (s : session) (v : gmap Z (list Binding)) (n : Z) : session :=
  {| dev := dev s; objects := objects s; vms := v; queues := queues s;
     next_handle := next_handle s; next_vm := n; next_queue := next_queue s;
     next_seq := next_seq s; signaled := signaled s;
     submitted := submitted s; retired := retired s |}.

Definition set_queues (s : session) (q : gmap Z Queue) (n : Z) : session :=
  {| dev := dev s; objects := objects s; vms := vms s; queues := q;
     next_handle := next_handle s; next_vm := next_vm s; next_queue := n;
     next_seq := next_seq s; signaled := signaled s;
     submitted := submitted s; retired := retired s |}.

(** ** Parameter query *)

(** Modelled from the spec: [get_param(id) -> value]; an id that is not
    recognised fails with [UnknownParameter]; a reserved member that is not
    zero is an [InvalidArgument]; the value comes back in the 64-bit
    [value] member. *)
Definition get_param (s : session) (a : drm_asahi_get_param.t)
  : result drm_asahi_get_param.t * session :=
  match drm_asahi_param_of_Z (drm_asahi_get_param.param a) with
  | None => (Err UnknownParameter, s)
  | Some p =>
      if negb (drm_asahi_get_param.pad a =? 0) then (Err InvalidArgument, s)
      else
        (Ok (drm_asahi_get_param.mk
               (drm_asahi_get_param.param a)
               (drm_asahi_get_param.pad a)
               (wrap64 (param_value (dev s) p))), s)
  end.

(** ** Memory objects *)

(** Modelled from the spec: [create_object(size, flags) -> handle];
    [size] must be positive ([InvalidSize]); the handle is new in the
    session. *)
Definition gem_create (s : session) (a : drm_asahi_gem_create.t)
  : result drm_asahi_gem_create.t * session :=
  if negb (0 <? drm_asahi_gem_create.size a) then (Err InvalidSize, s)
  else
    let h := next_handle s in
    (Ok (drm_asahi_gem_create.mk (drm_asahi_gem_create.size a) (drm_asahi_gem_create.flags a) h),
     set_objects s
       (<[h := {| mo_size := drm_asahi_gem_create.size a;
                  mo_flags := drm_asahi_gem_create.flags a |}]> (objects s))
       (h + 1)).

(** ** Address spaces *)

(** Modelled from the spec: [create_vm() -> vm_id]; the id is new; the
    reserved member must be zero. *)
Definition vm_create (s : session) (a : drm_asahi_vm_create.t)
  : result drm_asahi_vm_create.t * session :=
  if negb (drm_asahi_vm_create.pad a =? 0) then (Err InvalidArgument, s)
  else
    let v := next_vm s in
    (Ok (drm_asahi_vm_create.mk v 0), set_vms s (<[v := []]> (vms s)) (v + 1)).

Definition queue_on_vm (v : Z) (q : Queue) : bool := q_vm q =? v.

(** Modelled from the spec: [destroy_vm(vm_id)] fails with [VmInUse] while
    a binding or a queue still refers to the VM; the reserved member must
    be zero. *)
Definition vm_destroy (s : session) (a : drm_asahi_vm_destroy.t)
  : result unit * session :=
  if negb (drm_asahi_vm_destroy.pad a =? 0) then (Err InvalidArgument, s)
  else
    match vms s !! drm_asahi_vm_destroy.vm_id a with
    | None => (Err UnknownVm, s)
    | Some tbl =>
        match tbl with
        | _ :: _ => (Err VmInUse, s)
        | [] =>
            if existsb (fun kv => queue_on_vm (drm_asahi_vm_destroy.vm_id a) (snd kv))
                 (map_to_list (queues s))
            then (Err VmInUse, s)
            else (Ok tt, set_vms s (delete (drm_asahi_vm_destroy.vm_id a) (vms s)) (next_vm s))
        end
    end.

(** ** Binding table *)

(** Modelled from the spec: two address ranges overlap when they share an
    address. *)
Definition ranges_overlap (a1 r1 a2 r2 : Z) : bool :=
  (Z.max a1 a2 <? Z.min (a1 + r1) (a2 + r2)).

(** Modelled from the spec: the range [a, a + r) lies inside the region
    with the reported bounds [lo] and [hi]. *)
Definition in_region (lo hi a r : Z) : bool :=
  (lo <=? a) && (a + r <=? hi).

Definition in_vm_region (d : DeviceParams) (a r : Z) : bool :=
  in_region (vm_user_start d) (vm_user_end d) a r
  || in_region (vm_shader_start d) (vm_shader_end d) a r.

Definition binding_of (a : drm_asahi_gem_bind.t) : Binding :=
  {| bd_handle := drm_asahi_gem_bind.handle a;
     bd_offset := drm_asahi_gem_bind.offset a;
     bd_range := drm_asahi_gem_bind.range a;
     bd_addr := drm_asahi_gem_bind.addr a;
     bd_flags := drm_asahi_gem_bind.flags a |}.

Definition conflicts (tbl : list Binding) (a r : Z) : bool :=
  existsb (fun b => ranges_overlap (bd_addr b) (bd_range b) a r) tbl.

(** Modelled from the spec: [bind(handle, vm_id, offset, range, addr,
    flags)].  [offset + range] must not exceed the object's size
    ([OutOfBounds]); the target range must lie inside the user or the
    shader region ([AddressOutOfRange]); it must not overlap a binding of
    the same VM ([RangeConflict]).  A stale handle or VM id is
    [UnknownHandle] or [UnknownVm].  The call is one atomic step on the
    table of its VM. *)
Definition gem_bind (s : session) (a : drm_asahi_gem_bind.t) : result unit * session :=
  match objects s !! drm_asahi_gem_bind.handle a with
  | None => (Err UnknownHandle, s)
  | Some o =>
      match vms s !! drm_asahi_gem_bind.vm_id a with
      | None => (Err UnknownVm, s)
      | Some tbl =>
          if negb ((0 <=? drm_asahi_gem_bind.offset a)
                   && (0 <=? drm_asahi_gem_bind.range a)
                   && (drm_asahi_gem_bind.offset a + drm_asahi_gem_bind.range a <=? mo_size o))
          then (Err OutOfBounds, s)
          else if negb (in_vm_region (dev s) (drm_asahi_gem_bind.addr a) (drm_asahi_gem_bind.range a))
          then (Err AddressOutOfRange, s)
          else if conflicts tbl (drm_asahi_gem_bind.addr a) (drm_asahi_gem_bind.range a)
          then (Err RangeConflict, s)
          else
            (Ok tt,
             set_vms s (<[drm_asahi_gem_bind.vm_id a := tbl ++ [binding_of a]]> (vms s)) (next_vm s))
      end
  end.

(** What [gem_bind] checks before it looks for a conflict. *)
Definition bind_geometry_ok (s : session) (a : drm_asahi_gem_bind.t) : bool :=
  match objects s !! drm_asahi_gem_bind.handle a, vms s !! drm_asahi_gem_bind.vm_id a with
  | Some o, Some _ =>
      (0 <=? drm_asahi_gem_bind.offset a)
      && (0 <=? drm_asahi_gem_bind.range a)
      && (drm_asahi_gem_bind.offset a + drm_asahi_gem_bind.range a <=? mo_size o)
      && in_vm_region (dev s) (drm_asahi_gem_bind.addr a) (drm_asahi_gem_bind.range a)
  | _, _ => false
  end.

Definition bindings_of (s : session) (vm : Z) : list Binding :=
  default [] (vms s !! vm).

(** ** Queues *)

(** Modelled from the spec: [create_queue(vm_id, type, priority)];
    [priority] must be in [0,3] ([InvalidPriority]); [vm_id] must be live
    ([UnknownVm]); the reserved [flags] member must be zero and the type
    one of the enumeration ([InvalidArgument]). *)
Definition queue_create (s : session) (a : drm_asahi_queue_create.t)
  : result drm_asahi_queue_create.t * session :=
  if negb (drm_asahi_queue_create.flags a =? 0) then (Err InvalidArgument, s)
  else
    match drm_asahi_queue_type_of_Z (drm_asahi_queue_create.queue_type a) with
    | None => (Err InvalidArgument, s)
    | Some ty =>
        if negb ((0 <=? drm_asahi_queue_create.priority a)
                 && (drm_asahi_queue_create.priority a <=? 3))
        then (Err InvalidPriority, s)
        else
          match vms s !! drm_asahi_queue_create.vm_id a with
          | None => (Err UnknownVm, s)
          | Some _ =>
              let q := next_queue s in
              (Ok (drm_asahi_queue_create.mk
                     (drm_asahi_queue_create.vm_id a)
                     (drm_asahi_queue_create.queue_type a)
                     (drm_asahi_queue_create.priority a)
                     0 q),
               set_queues s
                 (<[q := {| q_vm := drm_asahi_queue_create.vm_id a;
                            q_type := ty;
                            q_priority := drm_asahi_queue_create.priority a;
                            q_pending := [] |}]> (queues s))
                 (q + 1))
          end
    end.

(** Modelled from the spec: [destroy_queue(queue_id)] fails with
    [QueueBusy] while submissions are outstanding (the reject-immediately
    policy of the two the description allows). *)
Definition queue_destroy (s : session) (a : drm_asahi_queue_destroy.t)
  : result unit * session :=
  match queues s !! drm_asahi_queue_destroy.queue_id a with
  | None => (Err UnknownQueue, s)
  | Some q =>
      match q_pending q with
      | _ :: _ => (Err QueueBusy, s)
      | [] => (Ok tt, set_queues s (delete (drm_asahi_queue_destroy.queue_id a) (queues s)) (next_queue s))
      end
  end.

(** ** Render command buffer validation *)

(** Modelled from the spec: an address resolves when it falls inside a
    binding of the table. *)
Definition resolves (tbl : list Binding) (p : Z) : bool :=
  existsb (fun b => (bd_addr b <=? p) && (p <? bd_addr b + bd_range b)) tbl.

(** The attachments a descriptor uses: the first [attachment_count]
    entries of the array. *)
Definition used_attachments (c : drm_asahi_cmd_render.t) : list drm_asahi_attachment.t :=
  take (Z.to_nat (drm_asahi_cmd_render.attachment_count c)) (drm_asahi_cmd_render.attachments c).

(** Modelled from the spec: the members of the descriptor that hold
    addresses and that validation looks at: its 64-bit address members,
    the four pipeline-binary addresses (load, store, partial reload,
    partial store), which must be bound in the submitting VM like every
    other address, and the pointer of each attachment in use.  (The
    64-bit [flags], [zls_ctrl] and [ppp_multisamplectl] are control
    words, and the bind words are parameters, not addresses.) *)
Definition pointer_fields (c : drm_asahi_cmd_render.t) : list Z :=
  [ drm_asahi_cmd_render.encoder_ptr c;
    drm_asahi_cmd_render.depth_buffer_1 c;
    drm_asahi_cmd_render.depth_buffer_2 c;
    drm_asahi_cmd_render.depth_buffer_3 c;
    drm_asahi_cmd_render.depth_meta_buffer_1 c;
    drm_asahi_cmd_render.depth_meta_buffer_2 c;
    drm_asahi_cmd_render.depth_meta_buffer_3 c;
    drm_asahi_cmd_render.stencil_buffer_1 c;
    drm_asahi_cmd_render.stencil_buffer_2 c;
    drm_asahi_cmd_render.stencil_buffer_3 c;
    drm_asahi_cmd_render.stencil_meta_buffer_1 c;
    drm_asahi_cmd_render.stencil_meta_buffer_2 c;
    drm_asahi_cmd_render.stencil_meta_buffer_3 c;
    drm_asahi_cmd_render.scissor_array c;
    drm_asahi_cmd_render.depth_bias_array c;
    drm_asahi_cmd_render.visibility_result_buffer c;
    drm_asahi_cmd_render.load_pipeline c;
    drm_asahi_cmd_render.store_pipeline c;
    drm_asahi_cmd_render.partial_reload_pipeline c;
    drm_asahi_cmd_render.partial_store_pipeline c ]
  ++ map drm_asahi_attachment.pointer (used_attachments c).

Definition pointer_ok (tbl : list Binding) (p : Z) : bool :=
  (p =? 0) || resolves tbl p.

(** Modelled from the spec: validation of a render command buffer against
    the binding table of the submitting VM.  [attachment_count] must be at
    most [ASAHI_MAX_ATTACHMENTS] ([TooManyAttachments]); every pointer that
    is not null must fall inside a binding ([UnboundAddress]). *)
Definition validate_render (tbl : list Binding) (c : drm_asahi_cmd_render.t) : result unit :=
  if ASAHI_MAX_ATTACHMENTS <? drm_asahi_cmd_render.attachment_count c
  then Err TooManyAttachments
  else if forallb (pointer_ok tbl) (pointer_fields c) then Ok tt
  else Err UnboundAddress.

(** ** Submission *)

Definition set_submit (s : session) (q : gmap Z Queue) (qid : Z) (sub : Submission) : session :=
  {| dev := dev s; objects := objects s; vms := vms s; queues := q;
     next_handle := next_handle s; next_vm := next_vm s; next_queue := next_queue s;
     next_seq := next_seq s + 1; signaled := signaled s;
     submitted := submitted s ++ [(qid, sub)]; retired := retired s |}.

Definition enqueue (q : Queue) (sub : Submission) : Queue :=
  {| q_vm := q_vm q; q_type := q_type q; q_priority := q_priority q;
     q_pending := q_pending q ++ [sub] |}.

(** Modelled from the spec: [submit(queue_id, cmd_type, cmd_buffer,
    in_syncs, out_sync)].  [cmd] is the render descriptor read at
    [cmd_buffer] (looked at for a render command only) and [syncs] the
    array read at [in_syncs].  The command type must be compatible with the
    type of the queue ([CommandTypeMismatch]); the description leaves the
    compatibility relation open, so it is the parameter [compatible].  A
    render command is validated against the binding table of the VM of the
    queue.  An accepted submission goes to the end of the queue; the call
    does not wait for it to execute. *)
Definition submit (compatible : drm_asahi_queue_type -> drm_asahi_cmd_type -> bool)
    (s : session) (a : drm_asahi_submit.t)
    (cmd : drm_asahi_cmd_render.t) (syncs : list Z) : result unit * session :=
  match queues s !! drm_asahi_submit.queue_id a with
  | None => (Err UnknownQueue, s)
  | Some q =>
      if negb (drm_asahi_submit.flags a =? 0) then (Err InvalidArgument, s)
      else
        match drm_asahi_cmd_type_of_Z (drm_asahi_submit.cmd_type a) with
        | None => (Err InvalidArgument, s)
        | Some ct =>
            if negb (compatible (q_type q) ct) then (Err CommandTypeMismatch, s)
            else
              match (match ct with
                     | DRM_ASAHI_CMD_RENDER => validate_render (bindings_of s (q_vm q)) cmd
                     | _ => Ok tt
                     end) with
              | Err e => (Err e, s)
              | Ok _ =>
                  let sub :=
                    {| sub_seq := next_seq s;
                       sub_cmd_type := ct;
                       sub_cmd_buffer := drm_asahi_submit.cmd_buffer a;
                       sub_in_syncs := take (Z.to_nat (drm_asahi_submit.in_sync_count a)) syncs;
                       sub_out_sync := drm_asahi_submit.out_sync a |} in
                  (Ok tt,
                   set_submit s
                     (<[drm_asahi_submit.queue_id a := enqueue q sub]> (queues s))
                     (drm_asahi_submit.queue_id a) sub)
              end
        end
  end.

(** Modelled from the spec: a submission may start once every sync object
    it waits on is signalled. *)
Definition ready (s : session) (sub : Submission) : bool :=
  forallb (fun h => bool_decide (h ∈ signaled s)) (sub_in_syncs sub).

Definition dequeue (q : Queue) (rest : list Submission) : Queue :=
  {| q_vm := q_vm q; q_type := q_type q; q_priority := q_priority q;
     q_pending := rest |}.

(** Modelled from the spec: execution of the work of one queue.  Only the
    oldest pending submission of a queue may run, and only when it is
    [ready]; running it makes its effects observable (it is appended to
    [retired]) and signals its output sync object, where handle 0 stands
    for "none". *)
Definition execute (s : session) (qid : Z) : option session :=
  match queues s !! qid with
  | None => None
  | Some q =>
      match q_pending q with
      | [] => None
      | sub :: rest =>
          if ready s sub then
            Some {| dev := dev s; objects := objects s; vms := vms s;
                    queues := <[qid := dequeue q rest]> (queues s);
                    next_handle := next_handle s; next_vm := next_vm s;
                    next_queue := next_queue s; next_seq := next_seq s;
                    signaled := if sub_out_sync sub =? 0 then signaled s
                                else {[sub_out_sync sub]} ∪ signaled s;
                    submitted := submitted s;
                    retired := retired s ++ [(qid, sub)] |}
          else None
      end
  end.

(** Modelled from the spec: a sync object signalled from outside the
    session (sync objects belong to an external collaborator). *)
Definition signal (s : session) (h : Z) : session :=
  {| dev := dev s; objects := objects s; vms := vms s; queues := queues s;
     next_handle := next_handle s; next_vm := next_vm s;
     next_queue := next_queue s; next_seq := next_seq s;
     signaled := {[h]} ∪ signaled s;
     submitted := submitted s; retired := retired s |}.

(** ** Runs of a session

    Everything that can happen to a session: a call of one of the
    operations, the device executing the head of a queue, or a sync object
    being signalled.  A call that fails, and an execution that cannot
    start, leave the state as it is.  (The mmap-offset query is not among
    the events: it returns a token and has no effect on the state.) *)
Inductive event : Type :=
  | CallGetParam (a : drm_asahi_get_param.t)
  | CallVmCreate (a : drm_asahi_vm_create.t)
  | CallVmDestroy (a : drm_asahi_vm_destroy.t)
  | CallGemCreate (a : drm_asahi_gem_create.t)
  | CallGemBind (a : drm_asahi_gem_bind.t)
  | CallQueueCreate (a : drm_asahi_queue_create.t)
  | CallQueueDestroy (a : drm_asahi_queue_destroy.t)
  | CallSubmit (a : drm_asahi_submit.t) (cmd : drm_asahi_cmd_render.t) (syncs : list Z)
  | Execute (qid : Z)
  | Signal (h : Z).

Definition apply_event (compatible : drm_asahi_queue_type -> drm_asahi_cmd_type -> bool)
    (s : session) (ev : event) : session :=
  match ev with
  | CallGetParam a => snd (get_param s a)
  | CallVmCreate a => snd (vm_create s a)
  | CallVmDestroy a => snd (vm_destroy s a)
  | CallGemCreate a => snd (gem_create s a)
  | CallGemBind a => snd (gem_bind s a)
  | CallQueueCreate a => snd (queue_create s a)
  | CallQueueDestroy a => snd (queue_destroy s a)
  | CallSubmit a cmd syncs => snd (submit compatible s a cmd syncs)
  | Execute qid => default s (execute s qid)
  | Signal h => signal s h
  end.

Definition run (compatible : drm_asahi_queue_type -> drm_asahi_cmd_type -> bool)
    (evs : list event) (s : session) : session :=
  fold_left (apply_event compatible) evs s.

(** [x] occurs before [y] in [l]. *)
Definition before {A : Type} (x y : A) (l : list A) : Prop :=
  exists l1 l2 l3, l = l1 ++ x :: l2 ++ y :: l3.

(** The submissions of queue [qid] that still wait in it. *)
Definition pending (s : session) (qid : Z) : list (Z * Submission) :=
  match queues s !! qid with
  | Some q => map (pair qid) (q_pending q)
  | None => []
  end.

(** The entries of a log that belong to queue [qid], in the order of the
    log. *)
Definition queue_log (qid : Z) (l : list (Z * Submission)) : list (Z * Submission) :=
  filter (fun x => fst x = qid) l.

(** Two states that differ in nothing the queues or the logs depend on. *)
Definition same_queues (s s' : session) : Prop :=
  queues s' = queues s
  /\ submitted s' = submitted s
  /\ retired s' = retired s
  /\ next_seq s' = next_seq s
  /\ next_queue s' = next_queue s.

(** What every run keeps true: accepted submissions are numbered below
    [next_seq] and pairwise distinct; per queue, the accepted submissions
    are the executed ones followed by the pending ones; queue ids stay
    below [next_queue]. *)
Definition fifo_inv (s : session) : Prop :=
  (forall x, x ∈ submitted s -> sub_seq (snd x) < next_seq s)
  /\ NoDup (submitted s)
  /\ (forall q, queue_log q (submitted s) = queue_log q (retired s) ++ pending s q)
  /\ (forall q, is_Some (queues s !! q) -> q < next_queue s).

(** ** Small helpers for stating properties *)

(** The flags word of a binding with the given access rights. *)
Definition bind_flags (r w : bool) : Z :=
  Z.lor (if r then ASAHI_BIND_READ else 0) (if w then ASAHI_BIND_WRITE else 0).

(** The members of a declaration whose name starts with [p]. *)
Definition members_with_prefix (p : string) (ms : list (string * ctype)) : list string :=
  filter (fun n => String.prefix p n = true) (map fst ms).

Definition member_type (ms : list (string * ctype)) (name : string) : option ctype :=
  assoc_lookup name ms.

(** [b] directly follows [a] in a declaration of 32-bit members. *)
Definition adjacent_u32 (a64 : Z) (ms : list (string * ctype)) (a b : string) : bool :=
  match offsetof a64 ms a, offsetof a64 ms b, member_type ms a, member_type ms b with
  | Some oa, Some ob, Some U32, Some U32 => ob =? oa + 4
  | _, _, _, _ => false
  end.

Definition member_is_u32 (ms : list (string * ctype)) (name : string) : bool :=
  match member_type ms name with
  | Some U32 => true
  | _ => false
  end.

Definition member_is_u64 (ms : list (string * ctype)) (name : string) : bool :=
  match member_type ms name with
  | Some U64 => true
  | _ => false
  end.

(** The members of the render descriptor that the description passes over
    and that are named here: the encoder pointer and id, the scissor,
    depth-bias and visibility-result arrays, the control words, the merge
    bounds, the background-object words and the opaque hardware words. *)
Definition extra_render_members : list string :=
  [ "encoder_ptr"; "encoder_id";
    "scissor_array"; "depth_bias_array"; "visibility_result_buffer";
    "zls_ctrl"; "ppp_multisamplectl"; "ppp_ctrl";
    "merge_upper_x"; "merge_upper_y";
    "isp_bgobjdepth"; "isp_bgobjvals";
    "iogpu_unk_49"; "iogpu_unk_212"; "iogpu_unk_214" ]%string.

(** Whether a layout computed from [ms'] puts member [name] where the
    layout of [ms] has it. *)
Definition same_offset (a64 : Z) (ms ms' : list (string * ctype)) (name : string) : bool :=
  match offsetof a64 ms name, offsetof a64 ms' name with
  | Some o, Some o' => o =? o'
  | _, _ => false
  end.

(** The number of elements of an array member. *)
Definition array_length (ms : list (string * ctype)) (name : string) : option nat :=
  match member_type ms name with
  | Some (TArray _ n) => Some n
  | _ => None
  end.

(** Every pointer of a descriptor that is not null falls inside a binding
    of [tbl]. *)
Definition pointers_bound (tbl : list Binding) (c : drm_asahi_cmd_render.t) : Prop :=
  Forall (fun p => p = 0 \/ resolves tbl p = true) (pointer_fields c).

(** Live VM ids stay below [next_vm]. *)
Definition vm_inv (s : session) : Prop :=
  forall v, is_Some (vms s !! v) -> v < next_vm s.

(** Binding [x] is in the table of VM [v]. *)
Definition holds_binding (s : session) (v : Z) (x : Binding) : Prop :=
  exists t, vms s !! v = Some t /\ x ∈ t.

(** ** Sample data *)

Definition d0 : DeviceParams :=
  {| gpu_generation := 13; gpu_variant := 71; gpu_revision := 1; chip_id := 0x8103;
     feat_compat := 0; feat_incompat := 0; vm_page_size := 16384;
     vm_user_start := 0x100000000; vm_user_end := 0x7000000000;
     vm_shader_start := 0x1100000000; vm_shader_end := 0x1200000000 |}.

(** A render descriptor with every 64-bit address member at [p], the
    pipeline-binary addresses at [l], [st], [pr] and [ps], and [n]
    attachments in use, all pointing at [p]. *)
Definition cmd_with (p l st pr ps n : Z) : drm_asahi_cmd_render.t :=
  drm_asahi_cmd_render.mk
    0 p p p p p p p p p p p p p p p p
    0 0 0 64 64 32 32 1 1 0 0 0 0 0 0 0 0
    l 0 st 0 pr 0 ps 0 0 0 0
    (repeat (drm_asahi_attachment.mk ASAHI_ATTACHMENT_C 4096 p) (Z.to_nat ASAHI_MAX_ATTACHMENTS))
    n.

(** The same with the pipeline binaries at 0x4000, 0x4100, 0x4200 and
    0x4300. *)
Definition cmd_at (p n : Z) : drm_asahi_cmd_render.t :=
  cmd_with p 0x4000 0x4100 0x4200 0x4300 n.

(** A binding table with a buffer at 0x100000000 and the pipeline binaries
    at 0x4000. *)
Definition tbl0 : list Binding :=
  [ {| bd_handle := 1; bd_offset := 0; bd_range := 4096; bd_addr := 0x100000000;
       bd_flags := Z.lor ASAHI_BIND_READ ASAHI_BIND_WRITE |};
    {| bd_handle := 2; bd_offset := 0; bd_range := 4096; bd_addr := 0x4000;
       bd_flags := ASAHI_BIND_READ |} ].

(** The addresses two ranges share. *)
Definition shared_address (a1 r1 a2 r2 x : Z) : Prop :=
  (a1 <= x < a1 + r1) /\ (a2 <= x < a2 + r2).

(** Two bind requests aim at overlapping ranges of one VM. *)
Definition bind_overlap (a b : drm_asahi_gem_bind.t) : Prop :=
  drm_asahi_gem_bind.vm_id a = drm_asahi_gem_bind.vm_id b
  /\ ranges_overlap (drm_asahi_gem_bind.addr a) (drm_asahi_gem_bind.range a)
       (drm_asahi_gem_bind.addr b) (drm_asahi_gem_bind.range b) = true.

(** A session with one VM (id 1) and two objects of 4096 and 8192 bytes
    (handles 1 and 2). *)
Definition s_two_objects : session :=
  snd (gem_create
         (snd (gem_create
                 (snd (vm_create (initial d0) (drm_asahi_vm_create.mk 0 0)))
                 (drm_asahi_gem_create.mk 4096 0 0)))
         (drm_asahi_gem_create.mk 8192 0 0)).

(** The same session as a run, and some later activity in it. *)
Definition setup_two_objects : list event :=
  [ CallVmCreate (drm_asahi_vm_create.mk 0 0);
    CallGemCreate (drm_asahi_gem_create.mk 4096 0 0);
    CallGemCreate (drm_asahi_gem_create.mk 8192 0 0) ].

Definition later_events : list event :=
  [ CallVmCreate (drm_asahi_vm_create.mk 0 0);
    CallQueueCreate (drm_asahi_queue_create.mk 1 0 2 0 0);
    CallVmDestroy (drm_asahi_vm_destroy.mk 1 0);
    Signal 9 ].

Definition bind_a : drm_asahi_gem_bind.t :=
  drm_asahi_gem_bind.mk 1 1 0 4096 0x100000000 (bind_flags true true).

Definition bind_b : drm_asahi_gem_bind.t :=
  drm_asahi_gem_bind.mk 2 1 0 8192 0x100000800 (bind_flags true false).

(** A compatibility relation for the sample runs: render and blit commands
    on render queues, compute commands on compute queues. *)
Definition compatible0 (qt : drm_asahi_queue_type) (ct : drm_asahi_cmd_type) : bool :=
  match qt, ct with
  | DRM_ASAHI_QUEUE_RENDER, DRM_ASAHI_CMD_RENDER => true
  | DRM_ASAHI_QUEUE_RENDER, DRM_ASAHI_CMD_BLIT => true
  | DRM_ASAHI_QUEUE_COMPUTE, DRM_ASAHI_CMD_COMPUTE => true
  | _, _ => false
  end.

(** One VM, one object bound at 0x100000000, one render queue, two render
    submissions [sub_A] then [sub_B] (their descriptors point into the
    bound object and name no pipeline binary), both executed. *)
Definition run_two_submissions : list event :=
  [ CallVmCreate (drm_asahi_vm_create.mk 0 0);
    CallGemCreate (drm_asahi_gem_create.mk 4096 0 0);
    CallGemBind bind_a;
    CallQueueCreate (drm_asahi_queue_create.mk 1 0 1 0 0);
    CallSubmit (drm_asahi_submit.mk 1 0 0x7000 0 0 0 5) (cmd_with 0x100000000 0 0 0 0 1) [];
    CallSubmit (drm_asahi_submit.mk 1 0 0x8000 0 0 0 6) (cmd_with 0x100000000 0 0 0 0 1) [];
    Execute 1;
    Execute 1 ].

Definition sub_A : Submission :=
  {| sub_seq := 0; sub_cmd_type := DRM_ASAHI_CMD_RENDER; sub_cmd_buffer := 0x7000;
     sub_in_syncs := []; sub_out_sync := 5 |}.

Definition sub_B : Submission :=
  {| sub_seq := 1; sub_cmd_type := DRM_ASAHI_CMD_RENDER; sub_cmd_buffer := 0x8000;
     sub_in_syncs := []; sub_out_sync := 6 |}.

(** ** The header as a whole

    Every structure the header declares, under its name, and every flag
    macro with the member it is meant for. *)

Definition header_structs : list (string * list (string * ctype)) :=
  [ ("drm_asahi_get_param", members drm_asahi_get_param_fields);
    ("drm_asahi_vm_create", members drm_asahi_vm_create_fields);
    ("drm_asahi_vm_destroy", members drm_asahi_vm_destroy_fields);
    ("drm_asahi_gem_create", members drm_asahi_gem_create_fields);
    ("drm_asahi_gem_mmap_offset", members drm_asahi_gem_mmap_offset_fields);
    ("drm_asahi_gem_bind", members drm_asahi_gem_bind_fields);
    ("drm_asahi_queue_create", members drm_asahi_queue_create_fields);
    ("drm_asahi_queue_destroy", members drm_asahi_queue_destroy_fields);
    ("drm_asahi_submit", members drm_asahi_submit_fields);
    ("drm_asahi_attachment", drm_asahi_attachment_members);
    ("drm_asahi_cmd_render", drm_asahi_cmd_render_members) ]%string.

(** The offsets of a layout without any padding: every member directly
    after the one before it. *)
Fixpoint packed_offsets (a64 off : Z) (ms : list (string * ctype)) : list (string * Z) :=
  match ms with
  | [] => []
  | (name, ft) :: r => (name, off) :: packed_offsets a64 (off + sizeof a64 ft) r
  end.

(** The sum of the sizes of the members. *)
Definition packed_size (a64 : Z) (ms : list (string * ctype)) : Z :=
  fold_right (fun m acc => sizeof a64 (snd m) + acc) 0 ms.

(** The structures whose last member ends off an 8-byte boundary. *)
Definition tail_padded : list string :=
  [ "drm_asahi_gem_bind"; "drm_asahi_submit"; "drm_asahi_cmd_render" ]%string.

(** [&cmd->attachments[i]] as an offset into the render descriptor: the
    offset of the array plus [i] elements.  C does no bounds check here. *)
Definition attachment_at (a64 i : Z) : option Z :=
  match offsetof a64 drm_asahi_cmd_render_members "attachments" with
  | Some o => Some (o + i * sizeof a64 (TStruct drm_asahi_attachment_members))
  | None => None
  end.

(** The width in bits of a scalar member. *)
Definition member_bits (ms : list (string * ctype)) (name : string) : Z :=
  match member_type ms name with
  | Some U32 => 32
  | Some U64 => 64
  | _ => 0
  end.

(** The flag macros, each with the suffix of its definition ([1L << n] or
    [1UL << n]) and the structure and the member it is a flag of:
    [ASAHI_GEM_WRITEBACK] goes into the creation flags of a BO, the
    [ASAHI_BIND_*] flags into the flags of a bind, the [ASAHI_CMDBUF_*]
    flags into the flags of a render descriptor. *)
Definition header_flags : list (Z * long_suffix * list (string * ctype) * string) :=
  [ (ASAHI_GEM_WRITEBACK, SuffixL, members drm_asahi_gem_create_fields, "flags");
    (ASAHI_BIND_READ, SuffixL, members drm_asahi_gem_bind_fields, "flags");
    (ASAHI_BIND_WRITE, SuffixL, members drm_asahi_gem_bind_fields, "flags");
    (ASAHI_CMDBUF_NO_CLEAR_PIPELINE_TEXTURES, SuffixUL, drm_asahi_cmd_render_members, "flags");
    (ASAHI_CMDBUF_SET_WHEN_RELOADING_Z_OR_S, SuffixUL, drm_asahi_cmd_render_members, "flags");
    (ASAHI_CMDBUF_MEMORYLESS_RTS_USED, SuffixUL, drm_asahi_cmd_render_members, "flags");
    (ASAHI_CMDBUF_PROCESS_EMPTY_TILES, SuffixUL, drm_asahi_cmd_render_members, "flags") ]%string.

(** The bits of a word of [member_bits] bits that [w & ~F] can leave set:
    all of them for a [long] macro, those below the width of [long] for an
    [unsigned long] macro. *)
Definition kept_bits (sfx : long_suffix) (long_bits member_bits : Z) : Z :=
  match sfx with
  | SuffixL => member_bits
  | SuffixUL => Z.min member_bits long_bits
  end.

(** * Properties *)

(** ** Flag words *)

Lemma land_bit (w k : Z) :
  0 <= k -> Z.land w (Z.shiftl 1 k) = if Z.testbit w k then 2 ^ k else 0.
Proof.
  intros Hk. rewrite Z.shiftl_1_l.
  apply Z.bits_inj'. intros n Hn.
  rewrite Z.land_spec, Z.pow2_bits_eqb by lia.
  destruct (Z.eqb_spec k n) as [->|Hne].
  - rewrite andb_true_r. destruct (Z.testbit w n) eqn:E.
    + rewrite Z.pow2_bits_eqb, Z.eqb_refl by lia. reflexivity.
    + rewrite Z.bits_0. reflexivity.
  - rewrite andb_false_r. destruct (Z.testbit w k).
    + rewrite Z.pow2_bits_eqb by lia. symmetry. apply Z.eqb_neq. exact Hne.
    + rewrite Z.bits_0. reflexivity.
Qed.

Lemma flag_test_bit (w k : Z) :
  0 <= k -> flag_test w (Z.shiftl 1 k) = Z.testbit w k.
Proof.
  intros Hk. unfold flag_test. rewrite land_bit by exact Hk.
  destruct (Z.testbit w k); [|reflexivity].
  assert (0 < 2 ^ k) by (apply Z.pow_pos_nonneg; lia).
  destruct (Z.eqb_spec (2 ^ k) 0); [lia | reflexivity].
Qed.

Lemma flag_set_same (w k : Z) :
  0 <= k -> flag_test (flag_set w (Z.shiftl 1 k)) (Z.shiftl 1 k) = true.
Proof.
  intros Hk. rewrite flag_test_bit by exact Hk. unfold flag_set.
  rewrite Z.lor_spec, Z.shiftl_1_l, Z.pow2_bits_eqb, Z.eqb_refl by lia.
  apply orb_true_r.
Qed.

Lemma flag_set_other (w j k : Z) :
  0 <= j -> 0 <= k -> j <> k ->
  flag_test (flag_set w (Z.shiftl 1 j)) (Z.shiftl 1 k) = flag_test w (Z.shiftl 1 k).
Proof.
  intros Hj Hk Hne. rewrite !flag_test_bit by exact Hk. unfold flag_set.
  rewrite Z.lor_spec, Z.shiftl_1_l, Z.pow2_bits_eqb by lia.
  destruct (Z.eqb_spec j k); [contradiction | apply orb_false_r].
Qed.

(** Bit [n] of [~F] for the flag [F = 1 << k]. *)
Lemma c_complement_bit (sfx : long_suffix) (long_bits k n : Z) :
  0 <= k -> 0 <= n -> 0 <= long_bits ->
  Z.testbit (c_complement sfx long_bits (Z.shiftl 1 k)) n
  = match sfx with
    | SuffixL => negb (k =? n)
    | SuffixUL => (n <? long_bits) && negb (k =? n)
    end.
Proof.
  intros Hk Hn Hl. unfold c_complement. rewrite Z.shiftl_1_l. destruct sfx.
  - rewrite Z.lnot_spec, Z.pow2_bits_eqb by lia. reflexivity.
  - destruct (Z.ltb_spec n long_bits).
    + rewrite Z.mod_pow2_bits_low, Z.lnot_spec, Z.pow2_bits_eqb by lia. reflexivity.
    + rewrite Z.mod_pow2_bits_high by lia. reflexivity.
Qed.

Lemma flag_clear_same (sfx : long_suffix) (long_bits w k : Z) :
  0 <= k -> 0 <= long_bits ->
  flag_test (flag_clear sfx long_bits w (Z.shiftl 1 k)) (Z.shiftl 1 k) = false.
Proof.
  intros Hk Hl. rewrite flag_test_bit by exact Hk. unfold flag_clear.
  rewrite Z.land_spec, c_complement_bit, Z.eqb_refl by lia.
  destruct sfx; simpl; rewrite ?andb_false_r; reflexivity.
Qed.

Lemma flag_clear_other (sfx : long_suffix) (long_bits w j k : Z) :
  0 <= j -> 0 <= k < long_bits -> j <> k ->
  flag_test (flag_clear sfx long_bits w (Z.shiftl 1 j)) (Z.shiftl 1 k)
  = flag_test w (Z.shiftl 1 k).
Proof.
  intros Hj Hk Hne. rewrite !flag_test_bit by lia. unfold flag_clear.
  rewrite Z.land_spec, c_complement_bit by lia.
  destruct (Z.eqb_spec j k); [contradiction|].
  destruct (Z.ltb_spec k long_bits); [|lia].
  destruct sfx; apply andb_true_r.
Qed.

(** A [long] macro: the width of [long] plays no part. *)
Lemma flag_clear_long (long_bits w f : Z) :
  flag_clear SuffixL long_bits w f = Z.land w (Z.lnot f).
Proof. reflexivity. Qed.

Lemma flag_clear_long_same (long_bits w k : Z) :
  0 <= k -> flag_test (flag_clear SuffixL long_bits w (Z.shiftl 1 k)) (Z.shiftl 1 k) = false.
Proof.
  intros Hk. rewrite flag_test_bit, flag_clear_long by exact Hk.
  rewrite Z.land_spec, Z.lnot_spec, Z.shiftl_1_l, Z.pow2_bits_eqb, Z.eqb_refl by lia.
  apply andb_false_r.
Qed.

Lemma flag_clear_long_other (long_bits w j k : Z) :
  0 <= j -> 0 <= k -> j <> k ->
  flag_test (flag_clear SuffixL long_bits w (Z.shiftl 1 j)) (Z.shiftl 1 k)
  = flag_test w (Z.shiftl 1 k).
Proof.
  intros Hj Hk Hne. rewrite !flag_test_bit, flag_clear_long by exact Hk.
  rewrite Z.land_spec, Z.lnot_spec, Z.shiftl_1_l, Z.pow2_bits_eqb by lia.
  destruct (Z.eqb_spec j k); [contradiction | apply andb_true_r].
Qed.

(** C1.  The numeric constants of the protocol: queue types Render = 0 and
    Compute = 1; command types Render = 0, Blit = 1 and Compute = 2;
    attachment types Color = 0, Depth = 1 and Stencil = 2.  The bind access
    flags Read and Write are the single bits 0 and 1: in every flags word
    testing one is reading its bit, setting or clearing one leaves the test
    of the other as it was (clearing as C computes it for these [long]
    macros, whatever the width of [long]), and each of the four
    combinations is the flags word of some binding. *)
Theorem protocol_constants :
  (drm_asahi_queue_type_value DRM_ASAHI_QUEUE_RENDER = 0
   /\ drm_asahi_queue_type_value DRM_ASAHI_QUEUE_COMPUTE = 1)
  /\ (drm_asahi_cmd_type_value DRM_ASAHI_CMD_RENDER = 0
      /\ drm_asahi_cmd_type_value DRM_ASAHI_CMD_BLIT = 1
      /\ drm_asahi_cmd_type_value DRM_ASAHI_CMD_COMPUTE = 2)
  /\ (ASAHI_ATTACHMENT_C = 0 /\ ASAHI_ATTACHMENT_Z = 1 /\ ASAHI_ATTACHMENT_S = 2)
  /\ (ASAHI_BIND_READ = 2 ^ 0 /\ ASAHI_BIND_WRITE = 2 ^ 1)
  /\ (forall long_bits w : Z,
        flag_test w ASAHI_BIND_READ = Z.testbit w 0
        /\ flag_test w ASAHI_BIND_WRITE = Z.testbit w 1
        /\ flag_test (flag_set w ASAHI_BIND_READ) ASAHI_BIND_READ = true
        /\ flag_test (flag_set w ASAHI_BIND_READ) ASAHI_BIND_WRITE = flag_test w ASAHI_BIND_WRITE
        /\ flag_test (flag_set w ASAHI_BIND_WRITE) ASAHI_BIND_WRITE = true
        /\ flag_test (flag_set w ASAHI_BIND_WRITE) ASAHI_BIND_READ = flag_test w ASAHI_BIND_READ
        /\ flag_test (flag_clear SuffixL long_bits w ASAHI_BIND_READ) ASAHI_BIND_READ = false
        /\ flag_test (flag_clear SuffixL long_bits w ASAHI_BIND_READ) ASAHI_BIND_WRITE
           = flag_test w ASAHI_BIND_WRITE
        /\ flag_test (flag_clear SuffixL long_bits w ASAHI_BIND_WRITE) ASAHI_BIND_WRITE = false
        /\ flag_test (flag_clear SuffixL long_bits w ASAHI_BIND_WRITE) ASAHI_BIND_READ
           = flag_test w ASAHI_BIND_READ)
  /\ (forall r w : bool,
        flag_test (bind_flags r w) ASAHI_BIND_READ = r
        /\ flag_test (bind_flags r w) ASAHI_BIND_WRITE = w).
Proof.
  repeat split; try reflexivity.
  - apply (flag_test_bit w 0); lia.
  - apply (flag_test_bit w 1); lia.
  - apply (flag_set_same w 0); lia.
  - apply (flag_set_other w 0 1); lia.
  - apply (flag_set_same w 1); lia.
  - apply (flag_set_other w 1 0); lia.
  - apply (flag_clear_long_same long_bits w 0); lia.
  - apply (flag_clear_long_other long_bits w 0 1); lia.
  - apply (flag_clear_long_same long_bits w 1); lia.
  - apply (flag_clear_long_other long_bits w 1 0); lia.
  - destruct r, w; reflexivity.
  - destruct r, w; reflexivity.
Qed.

(** ** The version parameter *)

(** C5.  The unstable-UABI version is a parameter that can be queried: it
    is an enumerator of [drm_asahi_param], the first one, so its id is 0
    and no other parameter has a smaller or the same id.  The version of
    this revision of the header is 4. *)
Theorem uabi_version_parameter :
  DRM_ASAHI_UNSTABLE_UABI_VERSION = 4
  /\ hd_error (enum_values drm_asahi_param_decl) = Some (DRM_ASAHI_PARAM_UNSTABLE_UABI_VERSION, 0)
  /\ drm_asahi_param_value DRM_ASAHI_PARAM_UNSTABLE_UABI_VERSION = 0
  /\ drm_asahi_param_of_Z 0 = Some DRM_ASAHI_PARAM_UNSTABLE_UABI_VERSION
  /\ (forall p, drm_asahi_param_value DRM_ASAHI_PARAM_UNSTABLE_UABI_VERSION <= drm_asahi_param_value p)
  /\ (forall p, drm_asahi_param_of_Z (drm_asahi_param_value p) = Some p).
Proof.
  repeat split.
  - destruct p; vm_compute; congruence.
  - destruct p; reflexivity.
Qed.

(** ** The ioctl table *)

Lemma drm_ioctl_asahi_all_complete (i : drm_ioctl_asahi) : In i drm_ioctl_asahi_all.
Proof. destruct i; simpl; tauto. Qed.

(** C2.  The header defines nine operations, with the consecutive opcodes
    GetParam = 0x00 to Submit = 0x08 in the order of the operation table.
    Each takes one structure of scalar members, so of a fixed size.  The
    members of each structure are those the operation table lists, request
    fields first, in the same order (GemBind: handle, vm id, offset, range,
    addr, flags; Submit: queue id, cmd type, cmd-buffer pointer, flags, the
    in-sync handles as a count and a pointer, out-sync handle); a member
    the table does not list is a reserved must-be-zero word.  The table
    lists no response field exactly for the write-only requests. *)
Theorem ioctl_table_matches_operations :
  map ioctl_opcode drm_ioctl_asahi_all = [0; 1; 2; 3; 4; 5; 6; 7; 8]
  /\ (forall i, In i drm_ioctl_asahi_all)
  /\ (forall i, forallb (fun f => is_scalar (f_type f)) (ioctl_arg i) = true)
  /\ map (fun i => sizeof 8 (struct_of (ioctl_arg i))) drm_ioctl_asahi_all
     = [16; 8; 8; 16; 16; 40; 20; 4; 40]
  /\ (forall i, table_members i = map f_name (filter (fun f => listed i f = true) (ioctl_arg i)))
  /\ (forall i, forallb f_mbz (unlisted_members i) = true)
  /\ (forall i, spec_response i = [] <-> ioctl_dir i = DRM_IOW)
  /\ map f_name (ioctl_arg DRM_IOCTL_ASAHI_GEM_BIND)
     = ["handle"; "vm_id"; "offset"; "range"; "addr"; "flags"]%string
  /\ map f_name (ioctl_arg DRM_IOCTL_ASAHI_SUBMIT)
     = ["queue_id"; "cmd_type"; "cmd_buffer"; "flags"; "in_sync_count"; "in_syncs"; "out_sync"]%string.
Proof.
  split; [reflexivity|].
  split; [exact drm_ioctl_asahi_all_complete|].
  split; [intros i; destruct i; reflexivity|].
  split; [reflexivity|].
  split; [intros i; destruct i; reflexivity|].
  split; [intros i; destruct i; reflexivity|].
  split; [intros i; destruct i; simpl; split; congruence|].
  split; reflexivity.
Qed.

(** ** The render descriptor *)

Lemma cmdbuf_flag_is_bit (f : Z) :
  In f ASAHI_CMDBUF_flags -> exists k, 0 <= k <= 3 /\ f = Z.shiftl 1 k.
Proof.
  simpl. intros [<-|[<-|[<-|[<-|[]]]]];
    [exists 0 | exists 1 | exists 2 | exists 3]; (split; [lia | reflexivity]).
Qed.

Lemma long_widths_cases (long_bits : Z) :
  In long_bits long_widths -> long_bits = 32 \/ long_bits = 64.
Proof. simpl. intros [<-|[<-|[]]]; [left | right]; reflexivity. Qed.

Lemma cmdbuf_flags_independent (long_bits w f g : Z) :
  In long_bits long_widths ->
  In f ASAHI_CMDBUF_flags -> In g ASAHI_CMDBUF_flags ->
  flag_test (flag_set w f) f = true
  /\ flag_test (flag_clear SuffixUL long_bits w f) f = false
  /\ (f <> g ->
      flag_test (flag_set w f) g = flag_test w g
      /\ flag_test (flag_clear SuffixUL long_bits w f) g = flag_test w g).
Proof.
  intros Hl Hf Hg. apply long_widths_cases in Hl.
  destruct (cmdbuf_flag_is_bit f Hf) as (j & Hj & ->).
  destruct (cmdbuf_flag_is_bit g Hg) as (k & Hk & ->).
  split; [apply flag_set_same; lia|].
  split; [apply flag_clear_same; lia|].
  intros Hne. assert (j <> k) by congruence.
  split; [apply flag_set_other | apply flag_clear_other]; lia.
Qed.

(** C3.  The render command buffer has a fixed shape.  It holds the frame
    and tile dimensions ([fb_width], [fb_height], [utile_width],
    [utile_height], [samples], [layers]) as 32-bit members; for each of the
    four phases load, store, partial reload and partial store a pipeline
    reference directly followed by its one bind word; the depth and stencil
    buffers and their metadata buffers in three 64-bit slots each; and a
    64-bit flags word for which exactly four flags are defined, the bits 0
    to 3 in the order no-clear-pipeline-textures, set-when-reloading-Z-or-S,
    memoryless-RTs-used, process-empty-tiles.  Setting or clearing one of
    the four leaves the test of every other as it was (clearing as C
    computes it for these [unsigned long] macros, with a 32-bit and with a
    64-bit [long]). *)
Theorem render_descriptor_shape :
  forallb (name_in (map fst drm_asahi_cmd_render_members)) spec_render_members = true
  /\ sizeof 8 (TStruct drm_asahi_cmd_render_members) = 520
  /\ forallb (member_is_u32 drm_asahi_cmd_render_members) spec_render_dimensions = true
  /\ spec_render_phases = ["load"; "store"; "partial_reload"; "partial_store"]%string
  /\ forallb (fun ph => adjacent_u32 8 drm_asahi_cmd_render_members
                           (ph ++ "_pipeline")%string (ph ++ "_pipeline_bind")%string)
       spec_render_phases = true
  /\ forallb (fun ph => adjacent_u32 4 drm_asahi_cmd_render_members
                           (ph ++ "_pipeline")%string (ph ++ "_pipeline_bind")%string)
       spec_render_phases = true
  /\ Forall (fun ph => members_with_prefix (ph ++ "_pipeline")%string drm_asahi_cmd_render_members
                        = phase_members ph)
       spec_render_phases
  /\ Forall (fun b => members_with_prefix (b ++ "_")%string drm_asahi_cmd_render_members
                       = slot_members b
                       /\ forallb (member_is_u64 drm_asahi_cmd_render_members) (slot_members b) = true)
       spec_render_buffers
  /\ member_is_u64 drm_asahi_cmd_render_members "flags" = true
  /\ ASAHI_CMDBUF_flags = [2 ^ 0; 2 ^ 1; 2 ^ 2; 2 ^ 3]
  /\ ASAHI_CMDBUF_NO_CLEAR_PIPELINE_TEXTURES = 2 ^ 0
  /\ ASAHI_CMDBUF_SET_WHEN_RELOADING_Z_OR_S = 2 ^ 1
  /\ ASAHI_CMDBUF_MEMORYLESS_RTS_USED = 2 ^ 2
  /\ ASAHI_CMDBUF_PROCESS_EMPTY_TILES = 2 ^ 3
  /\ Forall (fun long_bits =>
               forall w,
                 Forall (fun f =>
                           flag_test (flag_set w f) f = true
                           /\ flag_test (flag_clear SuffixUL long_bits w f) f = false
                           /\ Forall (fun g =>
                                        f = g
                                        \/ (flag_test (flag_set w f) g = flag_test w g
                                            /\ flag_test (flag_clear SuffixUL long_bits w f) g
                                               = flag_test w g))
                                ASAHI_CMDBUF_flags)
                   ASAHI_CMDBUF_flags)
       long_widths.
Proof.
  do 6 (split; [reflexivity|]).
  split; [repeat constructor|].
  split; [repeat constructor|].
  do 6 (split; [reflexivity|]).
  apply Forall_forall. intros long_bits Hl. apply list_elem_of_In in Hl.
  intros w. apply Forall_forall. intros f Hf. apply list_elem_of_In in Hf.
  destruct (cmdbuf_flags_independent long_bits w f f Hl Hf Hf) as (Hs & Hc & _).
  split; [exact Hs|]. split; [exact Hc|].
  apply Forall_forall. intros g Hg. apply list_elem_of_In in Hg.
  destruct (decide (f = g)) as [E|E]; [left; exact E | right].
  destruct (cmdbuf_flags_independent long_bits w f g Hl Hf Hg) as (_ & _ & H). exact (H E).
Qed.

(** C9.  Beyond the members the description enumerates, the render
    descriptor holds further ones that are part of its layout: the encoder
    pointer and id, the scissor array, the depth-bias array, the
    visibility-result buffer, the zls and ppp control words, the merge
    bounds, the background-object depth and value words and the opaque
    [iogpu_unk_*] words (18 members of 47 are not enumerated).  A layout
    computed from the enumerated members alone has the wrong size and puts
    every member but [flags] at the wrong offset, with either alignment of
    64-bit members. *)
Theorem render_descriptor_unlisted_members :
  forallb (name_in (map fst unlisted_render_members)) extra_render_members = true
  /\ forallb (fun n => negb (name_in spec_render_members n)) extra_render_members = true
  /\ (length drm_asahi_cmd_render_members = 47
      /\ length spec_only_render_members = 29
      /\ length unlisted_render_members = 18)%nat
  /\ sizeof 8 (TStruct drm_asahi_cmd_render_members) = 520
  /\ sizeof 8 (TStruct spec_only_render_members) = 424
  /\ sizeof 4 (TStruct drm_asahi_cmd_render_members) = 516
  /\ sizeof 4 (TStruct spec_only_render_members) = 420
  /\ offsetof 8 drm_asahi_cmd_render_members "attachment_count" = Some 512
  /\ offsetof 8 spec_only_render_members "attachment_count" = Some 416
  /\ filter (fun n => same_offset 8 drm_asahi_cmd_render_members spec_only_render_members n = true)
       spec_render_members = ["flags"]%string
  /\ filter (fun n => same_offset 4 drm_asahi_cmd_render_members spec_only_render_members n = true)
       spec_render_members = ["flags"]%string.
Proof.
  repeat split; reflexivity.
Qed.

(** ** Parameter query *)

Lemma drm_asahi_param_of_Z_range (id : Z) :
  is_Some (drm_asahi_param_of_Z id) <-> 0 <= id < 12.
Proof.
  unfold drm_asahi_param_of_Z. cbn.
  repeat (match goal with
          | |- context [id =? ?k] => destruct (Z.eqb_spec id k) as [->|?]
          end; [split; [intros _; lia | intros _; eexists; reflexivity]|]).
  split; [intros [x Hx]; discriminate | lia].
Qed.

Lemma drm_asahi_param_roundtrip (p : drm_asahi_param) :
  drm_asahi_param_of_Z (drm_asahi_param_value p) = Some p.
Proof. destruct p; reflexivity. Qed.

Lemma wrap64_is_u64 (x : Z) : is_u64 (wrap64 x).
Proof. unfold is_u64, wrap64. apply Z.mod_pos_bound. lia. Qed.

Lemma get_param_state (s : session) (a : drm_asahi_get_param.t) :
  snd (get_param s a) = s.
Proof.
  unfold get_param.
  destruct (drm_asahi_param_of_Z _); [|reflexivity].
  destruct (negb _); reflexivity.
Qed.

(** C6.  [get_param] takes the parameter id in a 32-bit member and
    returns the value in a 64-bit one.  The recognised ids are exactly the
    twelve of the enumeration, 0 to 11: the UABI version, the GPU
    generation, variant, revision and chip id, the compatible and
    incompatible feature sets, and the VM page size, user-region start and
    end and shader-region start and end.  For every other id the call
    fails with [UnknownParameter]; no call changes the state; a recognised
    id with the reserved word at zero yields the 64-bit value of the
    parameter. *)
Theorem get_param_recognised_ids :
  (member_is_u32 (members drm_asahi_get_param_fields) "param" = true
   /\ member_is_u64 (members drm_asahi_get_param_fields) "value" = true)
  /\ map fst (enum_values drm_asahi_param_decl)
     = [ DRM_ASAHI_PARAM_UNSTABLE_UABI_VERSION;
         DRM_ASAHI_PARAM_GPU_GENERATION; DRM_ASAHI_PARAM_GPU_VARIANT;
         DRM_ASAHI_PARAM_GPU_REVISION; DRM_ASAHI_PARAM_CHIP_ID;
         DRM_ASAHI_PARAM_FEAT_COMPAT; DRM_ASAHI_PARAM_FEAT_INCOMPAT;
         DRM_ASAHI_PARAM_VM_PAGE_SIZE;
         DRM_ASAHI_PARAM_VM_USER_START; DRM_ASAHI_PARAM_VM_USER_END;
         DRM_ASAHI_PARAM_VM_SHADER_START; DRM_ASAHI_PARAM_VM_SHADER_END ]
  /\ (forall p, drm_asahi_param_of_Z (drm_asahi_param_value p) = Some p)
  /\ (forall id, is_Some (drm_asahi_param_of_Z id) <-> 0 <= id < 12)
  /\ (forall s a,
        drm_asahi_param_of_Z (drm_asahi_get_param.param a) = None ->
        get_param s a = (Err UnknownParameter, s))
  /\ (forall s a, snd (get_param s a) = s)
  /\ (forall s a p,
        drm_asahi_param_of_Z (drm_asahi_get_param.param a) = Some p ->
        drm_asahi_get_param.pad a = 0 ->
        get_param s a
        = (Ok (drm_asahi_get_param.mk (drm_asahi_get_param.param a) 0
                 (wrap64 (param_value (dev s) p))), s)
        /\ is_u64 (wrap64 (param_value (dev s) p))).
Proof.
  split; [split; reflexivity|].
  split; [reflexivity|].
  split; [exact drm_asahi_param_roundtrip|].
  split; [exact drm_asahi_param_of_Z_range|].
  split.
  { intros s a H. unfold get_param. rewrite H. reflexivity. }
  split; [exact get_param_state|].
  intros s a p Hp Hpad. split; [|apply wrap64_is_u64].
  unfold get_param. rewrite Hp, Hpad. reflexivity.
Qed.

Lemma get_param_recognised_ids_witness :
  get_param (initial d0) (drm_asahi_get_param.mk 12 0 0) = (Err UnknownParameter, initial d0)
  /\ get_param (initial d0) (drm_asahi_get_param.mk 7 0 0)
     = (Ok (drm_asahi_get_param.mk 7 0 16384), initial d0).
Proof.
  destruct get_param_recognised_ids as (_ & _ & _ & _ & Hunk & _ & Hok).
  split.
  - apply Hunk. reflexivity.
  - apply (Hok (initial d0) (drm_asahi_get_param.mk 7 0 0) DRM_ASAHI_PARAM_VM_PAGE_SIZE);
      reflexivity.
Defined.

(** ** Reserved members *)

Lemma eqb_zero_false (x : Z) : x <> 0 -> negb (x =? 0) = true.
Proof. intros H. destruct (Z.eqb_spec x 0); [contradiction | reflexivity]. Qed.

Lemma get_param_pad (s : session) (a : drm_asahi_get_param.t) :
  drm_asahi_get_param.pad a <> 0 ->
  is_err (fst (get_param s a)) = true /\ snd (get_param s a) = s.
Proof.
  intros H. unfold get_param.
  destruct (drm_asahi_param_of_Z _); [|split; reflexivity].
  rewrite (eqb_zero_false _ H). split; reflexivity.
Qed.

Lemma vm_create_pad (s : session) (a : drm_asahi_vm_create.t) :
  drm_asahi_vm_create.pad a <> 0 -> vm_create s a = (Err InvalidArgument, s).
Proof. intros H. unfold vm_create. rewrite (eqb_zero_false _ H). reflexivity. Qed.

Lemma vm_destroy_pad (s : session) (a : drm_asahi_vm_destroy.t) :
  drm_asahi_vm_destroy.pad a <> 0 -> vm_destroy s a = (Err InvalidArgument, s).
Proof. intros H. unfold vm_destroy. rewrite (eqb_zero_false _ H). reflexivity. Qed.

Lemma queue_create_flags (s : session) (a : drm_asahi_queue_create.t) :
  drm_asahi_queue_create.flags a <> 0 -> queue_create s a = (Err InvalidArgument, s).
Proof. intros H. unfold queue_create. rewrite (eqb_zero_false _ H). reflexivity. Qed.

(** C10.  Four argument structures hold a reserved member that the
    operation table does not list and that the header documents as
    must-be-zero: [pad] in those of get_param, vm_create and vm_destroy,
    and [flags] in that of queue creation, next to vm id, queue type,
    priority and the returned queue id.  A call with a value other than
    zero in one of them fails and leaves the state unchanged; the error is
    [InvalidArgument] (for get_param: when the id is a recognised one). *)
Theorem reserved_members_must_be_zero :
  (map f_name (unlisted_members DRM_IOCTL_ASAHI_GET_PARAM) = ["pad"]%string
   /\ map f_name (unlisted_members DRM_IOCTL_ASAHI_VM_CREATE) = ["pad"]%string
   /\ map f_name (unlisted_members DRM_IOCTL_ASAHI_VM_DESTROY) = ["pad"]%string
   /\ map f_name (unlisted_members DRM_IOCTL_ASAHI_QUEUE_CREATE) = ["flags"]%string)
  /\ map f_name (ioctl_arg DRM_IOCTL_ASAHI_QUEUE_CREATE)
     = ["vm_id"; "queue_type"; "priority"; "flags"; "queue_id"]%string
  /\ (forall i, forallb f_mbz (unlisted_members i) = true)
  /\ (forall s a, drm_asahi_get_param.pad a <> 0 ->
        is_err (fst (get_param s a)) = true /\ snd (get_param s a) = s)
  /\ (forall s a p, drm_asahi_get_param.pad a <> 0 ->
        drm_asahi_param_of_Z (drm_asahi_get_param.param a) = Some p ->
        get_param s a = (Err InvalidArgument, s))
  /\ (forall s a, drm_asahi_vm_create.pad a <> 0 ->
        vm_create s a = (Err InvalidArgument, s))
  /\ (forall s a, drm_asahi_vm_destroy.pad a <> 0 ->
        vm_destroy s a = (Err InvalidArgument, s))
  /\ (forall s a, drm_asahi_queue_create.flags a <> 0 ->
        queue_create s a = (Err InvalidArgument, s)).
Proof.
  split; [repeat split; reflexivity|].
  split; [reflexivity|].
  split; [intros i; destruct i; reflexivity|].
  split; [exact get_param_pad|].
  split.
  { intros s a p H Hp. unfold get_param. rewrite Hp, (eqb_zero_false _ H). reflexivity. }
  split; [exact vm_create_pad|].
  split; [exact vm_destroy_pad|].
  exact queue_create_flags.
Qed.

Lemma reserved_members_must_be_zero_witness :
  get_param (initial d0) (drm_asahi_get_param.mk 0 1 0) = (Err InvalidArgument, initial d0)
  /\ vm_create (initial d0) (drm_asahi_vm_create.mk 0 1) = (Err InvalidArgument, initial d0)
  /\ vm_destroy (initial d0) (drm_asahi_vm_destroy.mk 1 1) = (Err InvalidArgument, initial d0)
  /\ queue_create (initial d0) (drm_asahi_queue_create.mk 1 0 0 1 0)
     = (Err InvalidArgument, initial d0).
Proof.
  destruct reserved_members_must_be_zero as (_ & _ & _ & _ & Hgp & Hvc & Hvd & Hqc).
  split; [apply (Hgp _ _ DRM_ASAHI_PARAM_UNSTABLE_UABI_VERSION); [simpl; lia | reflexivity]|].
  split; [apply Hvc; simpl; lia|].
  split; [apply Hvd; simpl; lia|].
  apply Hqc; simpl; lia.
Defined.

(** ** Render command buffer validation *)

Lemma pointers_bound_forallb (tbl : list Binding) (c : drm_asahi_cmd_render.t) :
  pointers_bound tbl c <-> forallb (pointer_ok tbl) (pointer_fields c) = true.
Proof.
  unfold pointers_bound. rewrite forallb_forall, Forall_forall.
  split; intros H p Hp.
  - apply list_elem_of_In in Hp. unfold pointer_ok.
    destruct (H p Hp) as [->|Hr]; [reflexivity|].
    rewrite Hr. apply orb_true_r.
  - apply list_elem_of_In in Hp. specialize (H p Hp). unfold pointer_ok in H.
    apply orb_true_iff in H. destruct H as [H|H]; [left; lia | right; exact H].
Qed.

Lemma validate_render_too_many (tbl : list Binding) (c : drm_asahi_cmd_render.t) :
  ASAHI_MAX_ATTACHMENTS < drm_asahi_cmd_render.attachment_count c ->
  validate_render tbl c = Err TooManyAttachments.
Proof.
  intros H. unfold validate_render.
  destruct (Z.ltb_spec ASAHI_MAX_ATTACHMENTS (drm_asahi_cmd_render.attachment_count c));
    [reflexivity | lia].
Qed.

Lemma validate_render_accepts (tbl : list Binding) (c : drm_asahi_cmd_render.t) :
  drm_asahi_cmd_render.attachment_count c <= ASAHI_MAX_ATTACHMENTS ->
  pointers_bound tbl c ->
  validate_render tbl c = Ok tt.
Proof.
  intros H Hb. unfold validate_render.
  destruct (Z.ltb_spec ASAHI_MAX_ATTACHMENTS (drm_asahi_cmd_render.attachment_count c));
    [lia|].
  apply pointers_bound_forallb in Hb. rewrite Hb. reflexivity.
Qed.

Lemma validate_render_unbound (tbl : list Binding) (c : drm_asahi_cmd_render.t) (p : Z) :
  drm_asahi_cmd_render.attachment_count c <= ASAHI_MAX_ATTACHMENTS ->
  In p (pointer_fields c) -> p <> 0 -> resolves tbl p = false ->
  validate_render tbl c = Err UnboundAddress.
Proof.
  intros Hn Hin Hp Hr. unfold validate_render.
  destruct (Z.ltb_spec ASAHI_MAX_ATTACHMENTS (drm_asahi_cmd_render.attachment_count c));
    [lia|].
  destruct (forallb (pointer_ok tbl) (pointer_fields c)) eqn:E; [|reflexivity].
  rewrite forallb_forall in E. specialize (E p Hin). unfold pointer_ok in E.
  rewrite Hr, orb_false_r in E. apply Z.eqb_eq in E. contradiction.
Qed.

Lemma submit_render_accepts (compatible : drm_asahi_queue_type -> drm_asahi_cmd_type -> bool)
    (s : session) (a : drm_asahi_submit.t) (cmd : drm_asahi_cmd_render.t)
    (syncs : list Z) (q : Queue) :
  queues s !! drm_asahi_submit.queue_id a = Some q ->
  drm_asahi_submit.flags a = 0 ->
  drm_asahi_submit.cmd_type a = drm_asahi_cmd_type_value DRM_ASAHI_CMD_RENDER ->
  compatible (q_type q) DRM_ASAHI_CMD_RENDER = true ->
  validate_render (bindings_of s (q_vm q)) cmd = Ok tt ->
  fst (submit compatible s a cmd syncs) = Ok tt.
Proof.
  intros Hq Hf Ht Hc Hv. unfold submit.
  rewrite Hq, Hf, Ht. simpl. rewrite Hc. simpl. rewrite Hv. reflexivity.
Qed.

Lemma submit_render_validates (compatible : drm_asahi_queue_type -> drm_asahi_cmd_type -> bool)
    (s : session) (a : drm_asahi_submit.t) (cmd : drm_asahi_cmd_render.t)
    (syncs : list Z) (q : Queue) (e : error) :
  queues s !! drm_asahi_submit.queue_id a = Some q ->
  drm_asahi_submit.flags a = 0 ->
  drm_asahi_submit.cmd_type a = drm_asahi_cmd_type_value DRM_ASAHI_CMD_RENDER ->
  compatible (q_type q) DRM_ASAHI_CMD_RENDER = true ->
  validate_render (bindings_of s (q_vm q)) cmd = Err e ->
  submit compatible s a cmd syncs = (Err e, s).
Proof.
  intros Hq Hf Ht Hc Hv. unfold submit.
  rewrite Hq, Hf, Ht. simpl. rewrite Hc. simpl. rewrite Hv. reflexivity.
Qed.

(** C4.  A render command buffer holds at most 16 attachments
    ([ASAHI_MAX_ATTACHMENTS], the length of the array).  Validation rejects
    every descriptor whose [attachment_count] is 17, or any value above 16,
    with [TooManyAttachments], whatever else it holds, and accepts a
    descriptor with [attachment_count] = 16 whose pointers that are not
    null all fall inside bindings of the VM.  A render submit on a queue
    that takes render commands fails or succeeds accordingly, and the
    failed one leaves the state unchanged. *)
Theorem attachment_count_limit :
  ASAHI_MAX_ATTACHMENTS = 16
  /\ array_length drm_asahi_cmd_render_members "attachments" = Some 16%nat
  /\ (forall tbl c,
        drm_asahi_cmd_render.attachment_count c = 17 ->
        validate_render tbl c = Err TooManyAttachments)
  /\ (forall tbl c,
        16 < drm_asahi_cmd_render.attachment_count c ->
        validate_render tbl c = Err TooManyAttachments)
  /\ (forall tbl c,
        drm_asahi_cmd_render.attachment_count c = 16 ->
        pointers_bound tbl c ->
        validate_render tbl c = Ok tt)
  /\ (forall compatible s a cmd syncs q,
        queues s !! drm_asahi_submit.queue_id a = Some q ->
        drm_asahi_submit.flags a = 0 ->
        drm_asahi_submit.cmd_type a = drm_asahi_cmd_type_value DRM_ASAHI_CMD_RENDER ->
        compatible (q_type q) DRM_ASAHI_CMD_RENDER = true ->
        (16 < drm_asahi_cmd_render.attachment_count cmd ->
         submit compatible s a cmd syncs = (Err TooManyAttachments, s))
        /\ (drm_asahi_cmd_render.attachment_count cmd = 16 ->
            pointers_bound (bindings_of s (q_vm q)) cmd ->
            fst (submit compatible s a cmd syncs) = Ok tt)).
Proof.
  split; [reflexivity|].
  split; [reflexivity|].
  split.
  { intros tbl c H. apply validate_render_too_many. unfold ASAHI_MAX_ATTACHMENTS. lia. }
  split.
  { intros tbl c H. apply validate_render_too_many. exact H. }
  split.
  { intros tbl c H Hb. apply validate_render_accepts; [|exact Hb].
    unfold ASAHI_MAX_ATTACHMENTS. lia. }
  intros compatible s a cmd syncs q Hq Hf Ht Hc. split.
  - intros Hn.
    apply (submit_render_validates compatible s a cmd syncs q); try assumption.
    apply validate_render_too_many. exact Hn.
  - intros Hn Hb.
    apply (submit_render_accepts compatible s a cmd syncs q); try assumption.
    apply validate_render_accepts; [|exact Hb].
    unfold ASAHI_MAX_ATTACHMENTS. lia.
Qed.

Lemma attachment_count_limit_witness :
  validate_render tbl0 (cmd_at 0x100000000 17) = Err TooManyAttachments
  /\ validate_render tbl0 (cmd_at 0x100000000 16) = Ok tt
  /\ length (pointer_fields (cmd_at 0x100000000 16)) = 36%nat
  /\ validate_render (take 1 tbl0) (cmd_at 0x100000000 16) = Err UnboundAddress.
Proof.
  destruct attachment_count_limit as (_ & _ & H17 & _ & H16 & _).
  split; [apply H17; reflexivity|].
  split; [|split; reflexivity].
  apply H16; [reflexivity|].
  apply pointers_bound_forallb. vm_compute. reflexivity.
Defined.

(** ** Binding table *)

Lemma ranges_overlap_spec (a1 r1 a2 r2 : Z) :
  ranges_overlap a1 r1 a2 r2 = true <-> exists x, shared_address a1 r1 a2 r2 x.
Proof.
  unfold ranges_overlap, shared_address. rewrite Z.ltb_lt. split.
  - intros H. exists (Z.max a1 a2). lia.
  - intros [x Hx]. lia.
Qed.

Lemma conflicts_app (t1 t2 : list Binding) (a r : Z) :
  conflicts (t1 ++ t2) a r = conflicts t1 a r || conflicts t2 a r.
Proof. unfold conflicts. apply existsb_app. Qed.

(** A failed bind changes nothing. *)
Lemma gem_bind_err_state (s s' : session) (a : drm_asahi_gem_bind.t) (e : error) :
  gem_bind s a = (Err e, s') -> s' = s.
Proof.
  unfold gem_bind. intros H.
  repeat match type of H with
         | context [match ?x with _ => _ end] => destruct x
         end; congruence.
Qed.

(** What a successful bind does: it passed the checks and the table of its
    VM grew by exactly the new binding. *)
Lemma gem_bind_ok_inv (s s1 : session) (a : drm_asahi_gem_bind.t) :
  gem_bind s a = (Ok tt, s1) ->
  exists tbl,
    vms s !! drm_asahi_gem_bind.vm_id a = Some tbl
    /\ conflicts tbl (drm_asahi_gem_bind.addr a) (drm_asahi_gem_bind.range a) = false
    /\ bind_geometry_ok s a = true
    /\ s1 = set_vms s (<[drm_asahi_gem_bind.vm_id a := tbl ++ [binding_of a]]> (vms s)) (next_vm s).
Proof.
  unfold gem_bind, bind_geometry_ok. intros H.
  destruct (objects s !! drm_asahi_gem_bind.handle a) as [o|]; [|discriminate].
  destruct (vms s !! drm_asahi_gem_bind.vm_id a) as [tbl|]; [|discriminate].
  destruct ((0 <=? drm_asahi_gem_bind.offset a)
            && (0 <=? drm_asahi_gem_bind.range a)
            && (drm_asahi_gem_bind.offset a + drm_asahi_gem_bind.range a <=? mo_size o))
    eqn:Hg; [|discriminate].
  destruct (in_vm_region (dev s) (drm_asahi_gem_bind.addr a) (drm_asahi_gem_bind.range a))
    eqn:Hr; [|discriminate].
  destruct (conflicts tbl (drm_asahi_gem_bind.addr a) (drm_asahi_gem_bind.range a))
    eqn:Hc; [discriminate|].
  simpl in H. exists tbl.
  split; [reflexivity|]. split; [exact Hc|].
  split; [reflexivity | congruence].
Qed.

Lemma gem_bind_conflict (s : session) (a : drm_asahi_gem_bind.t) (tbl : list Binding) :
  bind_geometry_ok s a = true ->
  vms s !! drm_asahi_gem_bind.vm_id a = Some tbl ->
  conflicts tbl (drm_asahi_gem_bind.addr a) (drm_asahi_gem_bind.range a) = true ->
  gem_bind s a = (Err RangeConflict, s).
Proof.
  unfold gem_bind, bind_geometry_ok. intros Hg Ht Hc. rewrite Ht in *.
  destruct (objects s !! drm_asahi_gem_bind.handle a) as [o|]; [|discriminate].
  apply andb_true_iff in Hg. destruct Hg as [Hg Hr].
  rewrite Hg, Hr, Hc. reflexivity.
Qed.

Lemma gem_bind_fails_on_conflict (s : session) (a : drm_asahi_gem_bind.t) (tbl : list Binding) :
  vms s !! drm_asahi_gem_bind.vm_id a = Some tbl ->
  conflicts tbl (drm_asahi_gem_bind.addr a) (drm_asahi_gem_bind.range a) = true ->
  exists e, gem_bind s a = (Err e, s).
Proof.
  unfold gem_bind. intros Ht Hc. rewrite Ht, Hc.
  destruct (objects s !! drm_asahi_gem_bind.handle a); [|eauto].
  destruct (negb _); [eauto|]. destruct (negb _); eauto.
Qed.

Lemma bind_geometry_ok_after (s s1 : session) (a b : drm_asahi_gem_bind.t) :
  gem_bind s a = (Ok tt, s1) ->
  bind_geometry_ok s b = true -> bind_geometry_ok s1 b = true.
Proof.
  intros Ha Hb. destruct (gem_bind_ok_inv _ _ _ Ha) as (tbl & Ht & _ & _ & ->).
  unfold bind_geometry_ok in *. simpl.
  destruct (objects s !! drm_asahi_gem_bind.handle b); [|discriminate].
  destruct (vms s !! drm_asahi_gem_bind.vm_id b) eqn:Hv; [|discriminate].
  destruct (decide (drm_asahi_gem_bind.vm_id a = drm_asahi_gem_bind.vm_id b)) as [E|E].
  - rewrite E, lookup_insert_eq. exact Hb.
  - rewrite lookup_insert_ne, Hv by exact E. exact Hb.
Qed.

(** *** Bindings stay *)

Ltac op_cases :=
  repeat match goal with
         | |- context [match ?x with _ => _ end] => destruct x
         end; simpl.

Lemma vm_inv_initial (d : DeviceParams) : vm_inv (initial d).
Proof. intros v [t Ht]. simpl in Ht. rewrite lookup_empty in Ht. discriminate. Qed.

(** Only three operations write the VM table. *)
Lemma apply_event_vms compatible (s : session) (ev : event) :
  match ev with
  | CallVmCreate _ | CallVmDestroy _ | CallGemBind _ => True
  | _ => vms (apply_event compatible s ev) = vms s
         /\ next_vm (apply_event compatible s ev) = next_vm s
  end.
Proof.
  destruct ev; simpl; trivial.
  - unfold get_param. op_cases; split; reflexivity.
  - unfold gem_create. op_cases; split; reflexivity.
  - unfold queue_create. op_cases; split; reflexivity.
  - unfold queue_destroy. op_cases; split; reflexivity.
  - unfold submit. op_cases; split; reflexivity.
  - unfold execute. op_cases; split; reflexivity.
  - split; reflexivity.
Qed.

Lemma apply_event_vm_inv compatible (s : session) (ev : event) :
  vm_inv s -> vm_inv (apply_event compatible s ev).
Proof.
  intros Hinv.
  pose proof (apply_event_vms compatible s ev) as Hsame.
  destruct ev;
    lazymatch type of Hsame with
    | _ /\ _ => destruct Hsame as [Hv Hn]; unfold vm_inv; rewrite Hv, Hn; exact Hinv
    | _ => clear Hsame; simpl
    end.
  - unfold vm_create. destruct (negb _); simpl; [exact Hinv|].
    intros w Hw. simpl in Hw. apply lookup_insert_is_Some in Hw. simpl.
    destruct Hw as [<-|[_ Hw]]; [lia | specialize (Hinv w Hw); lia].
  - unfold vm_destroy. op_cases; try exact Hinv.
    intros w Hw. simpl in Hw. apply lookup_delete_is_Some in Hw. apply Hinv. tauto.
  - unfold gem_bind.
    destruct (objects s !! _); simpl; [|exact Hinv].
    destruct (vms s !! drm_asahi_gem_bind.vm_id a) as [tbl|] eqn:Hv; simpl; [|exact Hinv].
    destruct (negb _); simpl; [exact Hinv|].
    destruct (negb _); simpl; [exact Hinv|].
    destruct (conflicts _ _ _); simpl; [exact Hinv|].
    intros w Hw. simpl in Hw. apply lookup_insert_is_Some in Hw. apply Hinv.
    destruct Hw as [<-|[_ Hw]]; [eauto | exact Hw].
Qed.

(** No event takes a binding out of a table: a VM is destroyed only when
    its table is empty, and a new VM gets an id that is not in use. *)
Lemma apply_event_keeps compatible (s : session) (ev : event) (v : Z) (x : Binding) :
  vm_inv s -> holds_binding s v x -> holds_binding (apply_event compatible s ev) v x.
Proof.
  intros Hinv (t & Ht & Hx).
  assert (Hkeep : holds_binding s v x) by (exists t; split; assumption).
  pose proof (apply_event_vms compatible s ev) as Hsame.
  destruct ev;
    lazymatch type of Hsame with
    | _ /\ _ => destruct Hsame as [Hv _]; unfold holds_binding; rewrite Hv; exact Hkeep
    | _ => clear Hsame; simpl
    end.
  - unfold vm_create. destruct (negb _); simpl; [exact Hkeep|].
    assert (v < next_vm s) by (apply Hinv; rewrite Ht; eauto).
    exists t. simpl. rewrite lookup_insert_ne by lia. split; assumption.
  - unfold vm_destroy. destruct (negb _); simpl; [exact Hkeep|].
    destruct (vms s !! drm_asahi_vm_destroy.vm_id a) as [tbl|] eqn:Hv; simpl; [|exact Hkeep].
    destruct tbl as [|b tbl]; simpl; [|exact Hkeep].
    destruct (existsb _ _); simpl; [exact Hkeep|].
    assert (Hne : drm_asahi_vm_destroy.vm_id a <> v).
    { intros E. rewrite E, Ht in Hv. injection Hv as ->. inversion Hx. }
    exists t. simpl. rewrite lookup_delete_ne by exact Hne. split; assumption.
  - unfold gem_bind.
    destruct (objects s !! _); simpl; [|exact Hkeep].
    destruct (vms s !! drm_asahi_gem_bind.vm_id a) as [tbl|] eqn:Hv; simpl; [|exact Hkeep].
    destruct (negb _); simpl; [exact Hkeep|].
    destruct (negb _); simpl; [exact Hkeep|].
    destruct (conflicts _ _ _); simpl; [exact Hkeep|].
    destruct (decide (drm_asahi_gem_bind.vm_id a = v)) as [E|E].
    + exists (tbl ++ [binding_of a]). simpl. rewrite E, lookup_insert_eq.
      split; [reflexivity|]. apply elem_of_app. left.
      rewrite E, Ht in Hv. injection Hv as ->. exact Hx.
    + exists t. simpl. rewrite lookup_insert_ne by exact E. split; assumption.
Qed.

Lemma run_vm_inv compatible (evs : list event) (s : session) :
  vm_inv s -> vm_inv (run compatible evs s).
Proof.
  revert s. induction evs as [|ev evs IH]; intros s Hs; [exact Hs|].
  simpl. apply IH, apply_event_vm_inv, Hs.
Qed.

Lemma run_keeps compatible (evs : list event) (s : session) (v : Z) (x : Binding) :
  vm_inv s -> holds_binding s v x -> holds_binding (run compatible evs s) v x.
Proof.
  revert s. induction evs as [|ev evs IH]; intros s Hinv Hh; [exact Hh|].
  simpl. apply IH; [apply apply_event_vm_inv | apply apply_event_keeps]; assumption.
Qed.

Lemma held_binding_conflicts (s : session) (a b : drm_asahi_gem_bind.t) :
  bind_overlap a b ->
  holds_binding s (drm_asahi_gem_bind.vm_id a) (binding_of a) ->
  exists t, vms s !! drm_asahi_gem_bind.vm_id b = Some t
            /\ conflicts t (drm_asahi_gem_bind.addr b) (drm_asahi_gem_bind.range b) = true.
Proof.
  intros [Hvm Hov] (t & Ht & Hx). exists t. rewrite <- Hvm. split; [exact Ht|].
  unfold conflicts. apply existsb_exists. exists (binding_of a).
  split; [apply list_elem_of_In; exact Hx | exact Hov].
Qed.

(** Whatever happens in the session after a bind succeeded, a bind into
    the same VM that overlaps it fails. *)
Lemma overlapping_bind_fails_later compatible (d : DeviceParams) (evs0 evs : list event)
    (a b : drm_asahi_gem_bind.t) (s1 : session) :
  bind_overlap a b ->
  gem_bind (run compatible evs0 (initial d)) a = (Ok tt, s1) ->
  (exists e, gem_bind (run compatible evs s1) b = (Err e, run compatible evs s1))
  /\ (bind_geometry_ok (run compatible evs s1) b = true ->
      gem_bind (run compatible evs s1) b = (Err RangeConflict, run compatible evs s1)).
Proof.
  intros Hov Ha.
  assert (Hinv1 : vm_inv s1).
  { replace s1 with (apply_event compatible (run compatible evs0 (initial d)) (CallGemBind a))
      by (simpl; rewrite Ha; reflexivity).
    apply apply_event_vm_inv, run_vm_inv, vm_inv_initial. }
  assert (Hh1 : holds_binding s1 (drm_asahi_gem_bind.vm_id a) (binding_of a)).
  { destruct (gem_bind_ok_inv _ _ _ Ha) as (tbl & _ & _ & _ & ->).
    exists (tbl ++ [binding_of a]). simpl. rewrite lookup_insert_eq.
    split; [reflexivity|]. apply elem_of_app. right. left. }
  pose proof (run_keeps compatible evs s1 _ _ Hinv1 Hh1) as Hh2.
  destruct (held_binding_conflicts _ a b Hov Hh2) as (t & Ht & Hc).
  split.
  - exact (gem_bind_fails_on_conflict _ b t Ht Hc).
  - intros Hg. exact (gem_bind_conflict _ b t Hg Ht Hc).
Qed.

(** C7.  A bind that fails leaves the state, and with it every binding
    table, exactly as it was.  Of two binds into one VM whose address
    ranges overlap at most one succeeds: once one of them has succeeded,
    the other fails, directly after it or at any later point of the
    session, [RangeConflict] being the error whenever the call passes the
    other checks; the table then holds the first binding only.  Binds are
    atomic steps, so two concurrent calls run in one of the two orders and
    the statement covers both. *)
Theorem overlapping_binds_conflict :
  (forall s a e s', gem_bind s a = (Err e, s') -> s' = s)
  /\ (forall s s1 a b,
        bind_overlap a b ->
        gem_bind s a = (Ok tt, s1) ->
        (exists e, gem_bind s1 b = (Err e, s1))
        /\ (bind_geometry_ok s b = true -> gem_bind s1 b = (Err RangeConflict, s1))
        /\ (exists tbl,
              bindings_of s (drm_asahi_gem_bind.vm_id a) = tbl
              /\ bindings_of s1 (drm_asahi_gem_bind.vm_id a) = tbl ++ [binding_of a]))
  /\ (forall compatible d evs0 evs a b s1,
        bind_overlap a b ->
        gem_bind (run compatible evs0 (initial d)) a = (Ok tt, s1) ->
        (exists e, gem_bind (run compatible evs s1) b = (Err e, run compatible evs s1))
        /\ (bind_geometry_ok (run compatible evs s1) b = true ->
            gem_bind (run compatible evs s1) b = (Err RangeConflict, run compatible evs s1)))
  /\ (forall a b,
        bind_overlap a b <->
        drm_asahi_gem_bind.vm_id a = drm_asahi_gem_bind.vm_id b
        /\ exists x, shared_address (drm_asahi_gem_bind.addr a) (drm_asahi_gem_bind.range a)
                       (drm_asahi_gem_bind.addr b) (drm_asahi_gem_bind.range b) x).
Proof.
  split; [intros s a e s'; apply gem_bind_err_state|].
  split.
  - intros s s1 a b [Hvm Hov] Ha.
    destruct (gem_bind_ok_inv _ _ _ Ha) as (tbl & Ht & Hc & Hg & Hs1).
    assert (Ht1 : vms s1 !! drm_asahi_gem_bind.vm_id b = Some (tbl ++ [binding_of a])).
    { rewrite Hs1, <- Hvm. simpl. apply lookup_insert_eq. }
    assert (Hc1 : conflicts (tbl ++ [binding_of a])
                    (drm_asahi_gem_bind.addr b) (drm_asahi_gem_bind.range b) = true).
    { rewrite conflicts_app. apply orb_true_iff. right.
      unfold conflicts. simpl. rewrite Hov. reflexivity. }
    split; [exact (gem_bind_fails_on_conflict s1 b _ Ht1 Hc1)|].
    split.
    + intros Hgb. apply (gem_bind_conflict s1 b (tbl ++ [binding_of a])); [|exact Ht1|exact Hc1].
      exact (bind_geometry_ok_after s s1 a b Ha Hgb).
    + exists tbl. unfold bindings_of. rewrite Ht. split; [reflexivity|].
      rewrite Hs1. simpl. rewrite lookup_insert_eq. reflexivity.
  - split.
    + intros compatible d evs0 evs a b s1.
      apply overlapping_bind_fails_later.
    + intros a b. unfold bind_overlap. rewrite ranges_overlap_spec. reflexivity.
Qed.

Lemma overlapping_binds_conflict_witness :
  gem_bind s_two_objects bind_a = (Ok tt, snd (gem_bind s_two_objects bind_a))
  /\ gem_bind (snd (gem_bind s_two_objects bind_a)) bind_b
     = (Err RangeConflict, snd (gem_bind s_two_objects bind_a))
  /\ gem_bind s_two_objects bind_b = (Ok tt, snd (gem_bind s_two_objects bind_b))
  /\ gem_bind (snd (gem_bind s_two_objects bind_b)) bind_a
     = (Err RangeConflict, snd (gem_bind s_two_objects bind_b))
  /\ gem_bind (run compatible0 later_events (snd (gem_bind s_two_objects bind_a))) bind_b
     = (Err RangeConflict, run compatible0 later_events (snd (gem_bind s_two_objects bind_a))).
Proof.
  destruct overlapping_binds_conflict as (_ & H & Hlater & _).
  assert (Ha : gem_bind s_two_objects bind_a = (Ok tt, snd (gem_bind s_two_objects bind_a)))
    by (vm_compute; reflexivity).
  assert (Hb : gem_bind s_two_objects bind_b = (Ok tt, snd (gem_bind s_two_objects bind_b)))
    by (vm_compute; reflexivity).
  split; [exact Ha|].
  split.
  { apply (H s_two_objects _ bind_a bind_b); [split; reflexivity | exact Ha | reflexivity]. }
  split; [exact Hb|].
  split.
  { apply (H s_two_objects _ bind_b bind_a); [split; reflexivity | exact Hb | reflexivity]. }
  apply (Hlater compatible0 d0 setup_two_objects later_events bind_a bind_b);
    [split; reflexivity | exact Ha | vm_compute; reflexivity].
Defined.

(** ** Order of execution within a queue *)

Section ListFacts.
Context {A : Type}.

Lemma filter_split (P : A -> Prop) `{forall x, Decision (P x)} (l u v : list A) (a : A) :
  filter P l = u ++ a :: v ->
  exists l1 l2, l = l1 ++ a :: l2 /\ filter P l1 = u /\ filter P l2 = v.
Proof.
  revert u. induction l as [|x l IH]; intros u Hf.
  - rewrite filter_nil in Hf. destruct u; discriminate.
  - rewrite filter_cons in Hf. destruct (decide (P x)) as [Hx|Hx].
    + destruct u as [|y u]; simpl in Hf.
      * injection Hf as -> Hv. exists [], l. rewrite filter_nil. auto.
      * injection Hf as -> Hf. destruct (IH u Hf) as (l1 & l2 & -> & H1 & H2).
        exists (y :: l1), l2. rewrite filter_cons_True by exact Hx.
        rewrite H1. auto.
    + destruct (IH u Hf) as (l1 & l2 & -> & H1 & H2).
      exists (x :: l1), l2. rewrite filter_cons_False by exact Hx. auto.
Qed.

Lemma NoDup_split_unique (u v r1 r2 : list A) (b : A) :
  NoDup (u ++ b :: v) -> u ++ b :: v = r1 ++ b :: r2 -> u = r1.
Proof.
  revert r1. induction u as [|x u IH]; intros r1 Hnd Heq.
  - destruct r1 as [|y r1]; [reflexivity|].
    simpl in *. injection Heq as <- Hv.
    apply NoDup_cons in Hnd. destruct Hnd as [Hn _].
    exfalso. apply Hn. rewrite Hv. apply elem_of_app. right. left.
  - simpl in *. apply NoDup_cons in Hnd. destruct Hnd as [Hn Hnd].
    destruct r1 as [|y r1]; simpl in Heq.
    + injection Heq as -> _. exfalso. apply Hn. apply elem_of_app. right. left.
    + injection Heq as <- Heq. f_equal. exact (IH r1 Hnd Heq).
Qed.

Lemma before_via_filter (P : A -> Prop) `{forall x, Decision (P x)} (l : list A) (a b : A) :
  before a b (filter P l) -> before a b l.
Proof.
  intros (u & v & w & Hf).
  destruct (filter_split P l u (v ++ b :: w) a Hf) as (l1 & m & -> & _ & Hm).
  destruct (filter_split P m v w b Hm) as (l2 & l3 & -> & _ & _).
  exists l1, l2, l3. reflexivity.
Qed.

Lemma before_filter (P : A -> Prop) `{forall x, Decision (P x)} (l : list A) (a b : A) :
  P a -> P b -> before a b l -> before a b (filter P l).
Proof.
  intros Ha Hb (l1 & l2 & l3 & ->).
  exists (filter P l1), (filter P l2), (filter P l3).
  rewrite filter_app, filter_cons_True by exact Ha.
  rewrite filter_app, filter_cons_True by exact Hb. reflexivity.
Qed.

Lemma before_asym (l : list A) (a b : A) :
  NoDup l -> before a b l -> before b a l -> False.
Proof.
  intros Hnd (l1 & l2 & l3 & H1) (m1 & m2 & m3 & H2).
  assert (Hl1 : l1 = m1 ++ b :: m2).
  { rewrite H1 in Hnd. apply (NoDup_split_unique l1 (l2 ++ b :: l3) _ m3 a Hnd).
    rewrite <- H1, H2, <- app_assoc. reflexivity. }
  rewrite H1, Hl1, <- app_assoc in Hnd. simpl in Hnd.
  apply NoDup_app in Hnd. destruct Hnd as (_ & _ & Hnd).
  apply NoDup_cons in Hnd. destruct Hnd as [Hn _]. apply Hn.
  apply elem_of_app. right. right. apply elem_of_app. right. left.
Qed.

End ListFacts.

Lemma queue_log_app (q : Z) (l k : list (Z * Submission)) :
  queue_log q (l ++ k) = queue_log q l ++ queue_log q k.
Proof. apply filter_app. Qed.

Lemma queue_log_one (q q' : Z) (x : Submission) :
  queue_log q [(q', x)] = if decide (q' = q) then [(q', x)] else [].
Proof.
  unfold queue_log. rewrite filter_cons, filter_nil. simpl. reflexivity.
Qed.

Lemma same_queues_inv (s s' : session) :
  same_queues s s' -> fifo_inv s -> fifo_inv s'.
Proof.
  intros (Hq & Hsub & Hret & Hseq & Hnq) (I1 & I2 & I3 & I4).
  unfold fifo_inv, pending. rewrite Hq, Hsub, Hret, Hseq, Hnq.
  split; [|split; [|split]]; assumption.
Qed.

Lemma same_queues_refl (s : session) : same_queues s s.
Proof. repeat split. Qed.

Lemma get_param_same (s : session) a : same_queues s (snd (get_param s a)).
Proof. unfold get_param. op_cases; repeat split. Qed.

Lemma vm_create_same (s : session) a : same_queues s (snd (vm_create s a)).
Proof. unfold vm_create. op_cases; repeat split. Qed.

Lemma vm_destroy_same (s : session) a : same_queues s (snd (vm_destroy s a)).
Proof. unfold vm_destroy. op_cases; repeat split. Qed.

Lemma gem_create_same (s : session) a : same_queues s (snd (gem_create s a)).
Proof. unfold gem_create. op_cases; repeat split. Qed.

Lemma gem_bind_same (s : session) a : same_queues s (snd (gem_bind s a)).
Proof. unfold gem_bind. op_cases; repeat split. Qed.

Lemma signal_same (s : session) h : same_queues s (signal s h).
Proof. repeat split. Qed.

Ltac split_inv := split; [|split; [|split]].

Lemma fifo_inv_initial (d : DeviceParams) : fifo_inv (initial d).
Proof.
  unfold fifo_inv, pending. simpl. split_inv.
  - intros x Hx. inversion Hx.
  - constructor.
  - intros q. rewrite lookup_empty. reflexivity.
  - intros q [x Hx]. rewrite lookup_empty in Hx. discriminate.
Qed.

Lemma queue_create_inv (s : session) (a : drm_asahi_queue_create.t) :
  fifo_inv s -> fifo_inv (snd (queue_create s a)).
Proof.
  intros Hinv. unfold queue_create.
  destruct (negb _); [exact Hinv|].
  destruct (drm_asahi_queue_type_of_Z _) as [ty|]; [|exact Hinv].
  destruct (negb _); [exact Hinv|].
  destruct (vms s !! _); [|exact Hinv].
  destruct Hinv as (I1 & I2 & I3 & I4).
  unfold fifo_inv, pending. simpl. split_inv; try assumption.
  - intros q. rewrite I3. f_equal. unfold pending.
    destruct (decide (next_queue s = q)) as [<-|Hne].
    + rewrite lookup_insert_eq. simpl.
      destruct (queues s !! next_queue s) eqn:E; [|reflexivity].
      assert (next_queue s < next_queue s) by (apply I4; eauto). lia.
    + rewrite lookup_insert_ne by exact Hne. reflexivity.
  - intros q Hq. apply lookup_insert_is_Some in Hq.
    destruct Hq as [<-|[_ Hq]]; [lia|]. specialize (I4 q Hq). lia.
Qed.

Lemma queue_destroy_inv (s : session) (a : drm_asahi_queue_destroy.t) :
  fifo_inv s -> fifo_inv (snd (queue_destroy s a)).
Proof.
  intros Hinv. unfold queue_destroy.
  destruct (queues s !! drm_asahi_queue_destroy.queue_id a) as [qu|] eqn:Hq; [|exact Hinv].
  destruct (q_pending qu) eqn:Hp; [|exact Hinv].
  destruct Hinv as (I1 & I2 & I3 & I4).
  unfold fifo_inv, pending. simpl. split_inv; try assumption.
  - intros q. rewrite I3. f_equal. unfold pending.
    destruct (decide (drm_asahi_queue_destroy.queue_id a = q)) as [<-|Hne].
    + rewrite lookup_delete_eq, Hq, Hp. reflexivity.
    + rewrite lookup_delete_ne by exact Hne. reflexivity.
  - intros q Hq'. apply lookup_delete_is_Some in Hq'. apply I4. tauto.
Qed.

Lemma submit_inv compatible (s : session) (a : drm_asahi_submit.t) cmd syncs :
  fifo_inv s -> fifo_inv (snd (submit compatible s a cmd syncs)).
Proof.
  intros Hinv. unfold submit.
  destruct (queues s !! drm_asahi_submit.queue_id a) as [qu|] eqn:Hq; [|exact Hinv].
  destruct (negb _); [exact Hinv|].
  destruct (drm_asahi_cmd_type_of_Z _) as [ct|]; [|exact Hinv].
  destruct (negb _); [exact Hinv|].
  match goal with |- context [match ?v with Ok _ => _ | Err _ => _ end] => destruct v end;
    [|exact Hinv].
  destruct Hinv as (I1 & I2 & I3 & I4).
  set (sub := {| sub_seq := next_seq s; sub_cmd_type := ct;
                 sub_cmd_buffer := drm_asahi_submit.cmd_buffer a;
                 sub_in_syncs := take (Z.to_nat (drm_asahi_submit.in_sync_count a)) syncs;
                 sub_out_sync := drm_asahi_submit.out_sync a |}).
  unfold fifo_inv, pending. simpl. split_inv.
  - intros x Hx. apply elem_of_app in Hx. destruct Hx as [Hx|Hx].
    + specialize (I1 x Hx). lia.
    + apply list_elem_of_singleton in Hx. subst x. simpl. lia.
  - apply NoDup_app. split; [exact I2|]. split; [|apply NoDup_singleton].
    intros x Hx Hx'. apply list_elem_of_singleton in Hx'. subst x.
    specialize (I1 _ Hx). simpl in I1. lia.
  - intros q. rewrite queue_log_app, I3, queue_log_one, <- app_assoc. f_equal.
    unfold pending.
    destruct (decide (drm_asahi_submit.queue_id a = q)) as [<-|Hne].
    + rewrite lookup_insert_eq, Hq. simpl. rewrite map_app. reflexivity.
    + rewrite lookup_insert_ne by exact Hne. rewrite app_nil_r. reflexivity.
  - intros q Hq'. apply lookup_insert_is_Some in Hq'. apply I4.
    destruct Hq' as [<-|[_ Hq']]; [eauto | exact Hq'].
Qed.

Lemma execute_inv (s s' : session) (qid : Z) :
  execute s qid = Some s' -> fifo_inv s -> fifo_inv s'.
Proof.
  unfold execute. intros He (I1 & I2 & I3 & I4).
  destruct (queues s !! qid) as [qu|] eqn:Hq; [|discriminate].
  destruct (q_pending qu) as [|sub rest] eqn:Hp; [discriminate|].
  destruct (ready s sub); [|discriminate].
  injection He as <-.
  unfold fifo_inv, pending. simpl. split_inv; try assumption.
  - intros q. rewrite queue_log_app, I3, queue_log_one, <- app_assoc. f_equal.
    unfold pending.
    destruct (decide (qid = q)) as [<-|Hne].
    + rewrite lookup_insert_eq, Hq, Hp. reflexivity.
    + rewrite lookup_insert_ne by exact Hne. reflexivity.
  - intros q Hq'. apply lookup_insert_is_Some in Hq'. apply I4.
    destruct Hq' as [<-|[_ Hq']]; [eauto | exact Hq'].
Qed.

Lemma apply_event_inv compatible (s : session) (ev : event) :
  fifo_inv s -> fifo_inv (apply_event compatible s ev).
Proof.
  intros Hinv. destruct ev; simpl.
  - exact (same_queues_inv _ _ (get_param_same s a) Hinv).
  - exact (same_queues_inv _ _ (vm_create_same s a) Hinv).
  - exact (same_queues_inv _ _ (vm_destroy_same s a) Hinv).
  - exact (same_queues_inv _ _ (gem_create_same s a) Hinv).
  - exact (same_queues_inv _ _ (gem_bind_same s a) Hinv).
  - exact (queue_create_inv s a Hinv).
  - exact (queue_destroy_inv s a Hinv).
  - exact (submit_inv compatible s a cmd syncs Hinv).
  - destruct (execute s qid) as [s'|] eqn:He; simpl; [|exact Hinv].
    exact (execute_inv s s' qid He Hinv).
  - exact (same_queues_inv _ _ (signal_same s h) Hinv).
Qed.

Lemma run_inv compatible (evs : list event) (s : session) :
  fifo_inv s -> fifo_inv (run compatible evs s).
Proof.
  revert s. induction evs as [|ev evs IH]; intros s Hinv; [exact Hinv|].
  simpl. apply IH. apply apply_event_inv. exact Hinv.
Qed.

(** In a state that satisfies the invariant, the executed submissions of a
    queue are a prefix of the accepted ones. *)
Lemma fifo_of_inv (s : session) (q : Z) (A B : Submission) :
  fifo_inv s ->
  before (q, A) (q, B) (submitted s) ->
  (q, B) ∈ retired s ->
  before (q, A) (q, B) (retired s).
Proof.
  intros (I1 & I2 & I3 & I4) (l1 & l2 & l3 & Hsub) HB.
  apply (before_via_filter (fun x => fst x = q)).
  fold (queue_log q (retired s)).
  assert (HBq : (q, B) ∈ queue_log q (retired s)).
  { apply list_elem_of_filter. split; [reflexivity | exact HB]. }
  apply list_elem_of_split in HBq. destruct HBq as (r1 & r2 & Hr).
  specialize (I3 q).
  assert (Hlog : queue_log q (submitted s)
                 = (queue_log q l1 ++ (q, A) :: queue_log q l2) ++ (q, B) :: queue_log q l3).
  { rewrite Hsub. unfold queue_log.
    rewrite filter_app, filter_cons_True by reflexivity.
    rewrite filter_app, filter_cons_True by reflexivity.
    rewrite <- app_assoc. reflexivity. }
  assert (Hnd : NoDup (queue_log q (submitted s))) by (apply NoDup_filter; exact I2).
  rewrite Hlog in Hnd.
  assert (Hu : queue_log q l1 ++ (q, A) :: queue_log q l2 = r1).
  { apply (NoDup_split_unique _ (queue_log q l3) r1 (r2 ++ pending s q) (q, B) Hnd).
    rewrite <- Hlog, I3, Hr, <- app_assoc. reflexivity. }
  exists (queue_log q l1), (queue_log q l2), r2.
  rewrite Hr, <- Hu, <- app_assoc. reflexivity.
Qed.

Lemma never_after_of_inv (s : session) (q : Z) (A B : Submission) :
  fifo_inv s ->
  before (q, A) (q, B) (submitted s) ->
  ~ before (q, B) (q, A) (retired s).
Proof.
  intros Hinv Hsub Hret.
  assert (HB : (q, B) ∈ retired s).
  { destruct Hret as (l1 & l2 & l3 & ->). apply elem_of_app. right. left. }
  pose proof (fifo_of_inv s q A B Hinv Hsub HB) as Hab.
  destruct Hinv as (I1 & I2 & I3 & I4).
  assert (Hnd : NoDup (queue_log q (retired s))).
  { assert (Hx : NoDup (queue_log q (submitted s))) by (apply NoDup_filter; exact I2).
    rewrite (I3 q) in Hx. apply NoDup_app in Hx. tauto. }
  apply (before_asym _ (q, A) (q, B) Hnd);
    apply before_filter; trivial.
Qed.

(** C8.  In every run of a session, for two submissions accepted on the
    same queue, [A] before [B]: once the effects of [B] are observable the
    effects of [A] are too and came first, and the effects of [A] never
    come after those of [B].  This holds with or without sync dependencies
    between the two. *)
Theorem queue_executes_in_submission_order :
  forall compatible d evs q A B,
    before (q, A) (q, B) (submitted (run compatible evs (initial d))) ->
    ((q, B) ∈ retired (run compatible evs (initial d)) ->
     before (q, A) (q, B) (retired (run compatible evs (initial d))))
    /\ ~ before (q, B) (q, A) (retired (run compatible evs (initial d))).
Proof.
  intros compatible d evs q A B Hsub.
  assert (Hinv : fifo_inv (run compatible evs (initial d)))
    by apply run_inv, fifo_inv_initial.
  split.
  - apply fifo_of_inv; assumption.
  - apply never_after_of_inv; assumption.
Qed.

Lemma queue_executes_in_submission_order_witness :
  submitted (run compatible0 run_two_submissions (initial d0)) = [(1, sub_A); (1, sub_B)]
  /\ retired (run compatible0 run_two_submissions (initial d0)) = [(1, sub_A); (1, sub_B)]
  /\ before (1, sub_A) (1, sub_B) (retired (run compatible0 run_two_submissions (initial d0))).
Proof.
  assert (Hs : submitted (run compatible0 run_two_submissions (initial d0))
               = [(1, sub_A); (1, sub_B)]) by (vm_compute; reflexivity).
  assert (Hr : retired (run compatible0 run_two_submissions (initial d0))
               = [(1, sub_A); (1, sub_B)]) by (vm_compute; reflexivity).
  split; [exact Hs|]. split; [exact Hr|].
  apply (queue_executes_in_submission_order compatible0 d0 run_two_submissions 1 sub_A sub_B).
  - exists [], [], []. exact Hs.
  - rewrite Hr. right. left.
Defined.

(** * Further properties of the header *)

(** ** Layout *)

Lemma header_structs_cases (P : string * list (string * ctype) -> Prop) :
  Forall P header_structs -> forall x, In x header_structs -> P x.
Proof. intros H x Hx. rewrite Forall_forall in H. apply H, list_elem_of_In, Hx. Qed.

(** X1.  No structure of the header has a hole: with either alignment of
    64-bit members, every member of every structure starts directly after
    the member before it, so the offsets are the same on both ABIs and are
    those of the 64-bit layout. *)
Theorem layout_has_no_holes (a64 : Z) (name : string) (ms : list (string * ctype)) :
  a64 = 4 \/ a64 = 8 ->
  In (name, ms) header_structs ->
  member_offsets a64 0 ms = packed_offsets a64 0 ms
  /\ member_offsets a64 0 ms = member_offsets 8 0 ms.
Proof.
  intros Ha Hin. revert Hin.
  apply (header_structs_cases
           (fun x => member_offsets a64 0 (snd x) = packed_offsets a64 0 (snd x)
                     /\ member_offsets a64 0 (snd x) = member_offsets 8 0 (snd x))).
  destruct Ha as [-> | ->]; repeat constructor.
Qed.

Lemma layout_has_no_holes_witness :
  offsetof 4 drm_asahi_cmd_render_members "attachment_count" = Some 512
  /\ member_offsets 4 0 (members drm_asahi_gem_bind_fields)
     = [("handle", 0); ("vm_id", 4); ("offset", 8); ("range", 16); ("addr", 24); ("flags", 32)]%string.
Proof.
  split.
  - unfold offsetof.
    rewrite (proj2 (layout_has_no_holes 4 "drm_asahi_cmd_render" drm_asahi_cmd_render_members
                      (or_introl eq_refl) ltac:(simpl; tauto))).
    reflexivity.
  - rewrite (proj1 (layout_has_no_holes 4 "drm_asahi_gem_bind" (members drm_asahi_gem_bind_fields)
                      (or_introl eq_refl) ltac:(simpl; tauto))).
    reflexivity.
Defined.

(** X2.  The size of every structure is the sum of the sizes of its
    members, except that with 8-byte aligned 64-bit members the structures
    of gem_bind and submit and the render descriptor get 4 bytes of tail
    padding: exactly these three have a size that depends on the ABI. *)
Theorem layout_tail_padding (a64 : Z) (name : string) (ms : list (string * ctype)) :
  a64 = 4 \/ a64 = 8 ->
  In (name, ms) header_structs ->
  sizeof a64 (TStruct ms)
  = packed_size a64 ms + (if (a64 =? 8) && name_in tail_padded name then 4 else 0).
Proof.
  intros Ha Hin. revert Hin.
  apply (header_structs_cases
           (fun x => sizeof a64 (TStruct (snd x))
                     = packed_size a64 (snd x)
                       + (if (a64 =? 8) && name_in tail_padded (fst x) then 4 else 0))).
  destruct Ha as [-> | ->]; repeat constructor.
Qed.

Lemma layout_tail_padding_witness :
  sizeof 8 (TStruct (members drm_asahi_submit_fields)) = 36 + 4
  /\ sizeof 4 (TStruct (members drm_asahi_submit_fields)) = 36 + 0
  /\ sizeof 8 (TStruct (members drm_asahi_get_param_fields)) = 16 + 0.
Proof.
  split; [|split].
  - apply (layout_tail_padding 8 "drm_asahi_submit" (members drm_asahi_submit_fields));
      [right; reflexivity | simpl; tauto].
  - apply (layout_tail_padding 4 "drm_asahi_submit" (members drm_asahi_submit_fields));
      [left; reflexivity | simpl; tauto].
  - apply (layout_tail_padding 8 "drm_asahi_get_param" (members drm_asahi_get_param_fields));
      [right; reflexivity | simpl; tauto].
Defined.

(** ** The attachment array *)

Lemma attachment_at_eq (a64 i : Z) :
  a64 = 4 \/ a64 = 8 -> attachment_at a64 i = Some (256 + i * 16).
Proof. intros [-> | ->]; reflexivity. Qed.

(** X3.  With an index below [ASAHI_MAX_ATTACHMENTS], [attachments[i]]
    lies inside the array, which occupies the bytes 256 to 512 of the
    render descriptor; its pointer member is 8-byte aligned; entries with
    different indices do not overlap.  The array is directly followed by
    [attachment_count]: index 16 addresses that member. *)
Theorem attachment_array_bounds (a64 i : Z) :
  a64 = 4 \/ a64 = 8 ->
  0 <= i < ASAHI_MAX_ATTACHMENTS ->
  exists o,
    attachment_at a64 i = Some o
    /\ offsetof a64 drm_asahi_cmd_render_members "attachments" = Some (o - i * 16)
    /\ 256 <= o
    /\ o + sizeof a64 (TStruct drm_asahi_attachment_members) <= 512
    /\ offsetof a64 drm_asahi_cmd_render_members "attachment_count" = Some 512
    /\ attachment_at a64 ASAHI_MAX_ATTACHMENTS
       = offsetof a64 drm_asahi_cmd_render_members "attachment_count"
    /\ offsetof a64 drm_asahi_attachment_members "pointer" = Some 8
    /\ (o + 8) mod 8 = 0
    /\ (forall j, 0 <= j < ASAHI_MAX_ATTACHMENTS -> j <> i ->
          exists o', attachment_at a64 j = Some o' /\ (o' + 16 <= o \/ o + 16 <= o')).
Proof.
  intros Ha Hi. unfold ASAHI_MAX_ATTACHMENTS in *.
  exists (256 + i * 16). rewrite !attachment_at_eq by exact Ha.
  split; [reflexivity|].
  split; [destruct Ha as [-> | ->]; f_equal; vm_compute offsetof; f_equal; lia|].
  split; [lia|].
  split; [destruct Ha as [-> | ->]; change (sizeof _ _) with 16; lia|].
  split; [destruct Ha as [-> | ->]; reflexivity|].
  split; [destruct Ha as [-> | ->]; reflexivity|].
  split; [destruct Ha as [-> | ->]; reflexivity|].
  split.
  { replace (256 + i * 16 + 8) with ((33 + i * 2) * 8) by lia. apply Z.mod_mul. lia. }
  intros j Hj Hne. exists (256 + j * 16). split; [apply attachment_at_eq; exact Ha | lia].
Qed.

Lemma attachment_array_bounds_witness :
  attachment_at 8 15 = Some 496 /\ attachment_at 8 16 = Some 512.
Proof.
  destruct (attachment_array_bounds 8 15 (or_intror eq_refl) ltac:(vm_compute; split; congruence))
    as (o & H1 & _ & _ & _ & H5 & H6 & _).
  split; [reflexivity|].
  change 16 with ASAHI_MAX_ATTACHMENTS. rewrite H6. exact H5.
Defined.

(** ** Enumerations *)

Ltac decode_cases v :=
  cbn;
  repeat (match goal with
          | |- context [v =? ?k] => destruct (Z.eqb_spec v k) as [->|?]
          end).

Lemma drm_asahi_queue_type_decode (v : Z) (t : drm_asahi_queue_type) :
  drm_asahi_queue_type_of_Z v = Some t <-> v = drm_asahi_queue_type_value t.
Proof.
  split.
  - unfold drm_asahi_queue_type_of_Z. decode_cases v; intros H; try discriminate;
      injection H as <-; reflexivity.
  - intros ->. destruct t; reflexivity.
Qed.

Lemma drm_asahi_cmd_type_decode (v : Z) (t : drm_asahi_cmd_type) :
  drm_asahi_cmd_type_of_Z v = Some t <-> v = drm_asahi_cmd_type_value t.
Proof.
  split.
  - unfold drm_asahi_cmd_type_of_Z. decode_cases v; intros H; try discriminate;
      injection H as <-; reflexivity.
  - intros ->. destruct t; reflexivity.
Qed.

Lemma drm_asahi_param_decode (v : Z) (p : drm_asahi_param) :
  drm_asahi_param_of_Z v = Some p <-> v = drm_asahi_param_value p.
Proof.
  split.
  - unfold drm_asahi_param_of_Z. decode_cases v; intros H; try discriminate;
      injection H as <-; reflexivity.
  - intros ->. destruct p; reflexivity.
Qed.

(** X4.  In each enumeration a number stands for an enumerator exactly
    when it is the value of that enumerator: queue types are 0 and 1 and
    nothing else, command types 0 to 2 and nothing else, distinct
    enumerators have distinct values, and the one incompatible-feature
    enumerator is bit 0. *)
Theorem enumerators_decode_exactly :
  (forall v t, drm_asahi_queue_type_of_Z v = Some t <-> v = drm_asahi_queue_type_value t)
  /\ (forall v, is_Some (drm_asahi_queue_type_of_Z v) <-> 0 <= v <= 1)
  /\ (forall v t, drm_asahi_cmd_type_of_Z v = Some t <-> v = drm_asahi_cmd_type_value t)
  /\ (forall v, is_Some (drm_asahi_cmd_type_of_Z v) <-> 0 <= v <= 2)
  /\ (forall v p, drm_asahi_param_of_Z v = Some p <-> v = drm_asahi_param_value p)
  /\ enum_values drm_asahi_feat_incompat_decl = [(DRM_ASAHI_FEAT_MANDATORY_ZS_COMPRESSION, 2 ^ 0)].
Proof.
  split; [exact drm_asahi_queue_type_decode|].
  split.
  { intros v. unfold drm_asahi_queue_type_of_Z. decode_cases v;
      (split; [intros H; try lia; destruct H; discriminate | intros H; try lia; eexists; reflexivity]). }
  split; [exact drm_asahi_cmd_type_decode|].
  split.
  { intros v. unfold drm_asahi_cmd_type_of_Z. decode_cases v;
      (split; [intros H; try lia; destruct H; discriminate | intros H; try lia; eexists; reflexivity]). }
  split; [exact drm_asahi_param_decode | reflexivity].
Qed.

(** ** Flag words in their members *)

Lemma lor_bit (w k : Z) :
  0 <= k -> Z.lor w (Z.shiftl 1 k) = if Z.testbit w k then w else w + 2 ^ k.
Proof.
  intros Hk. rewrite Z.shiftl_1_l. destruct (Z.testbit w k) eqn:E.
  - apply Z.bits_inj'. intros n Hn.
    rewrite Z.lor_spec, Z.pow2_bits_eqb by lia.
    destruct (Z.eqb_spec k n) as [<-|]; [rewrite E; reflexivity | apply orb_false_r].
  - symmetry. apply Z.add_nocarry_lor.
    apply Z.bits_inj'. intros n Hn.
    rewrite Z.land_spec, Z.pow2_bits_eqb, Z.bits_0 by lia.
    destruct (Z.eqb_spec k n) as [<-|]; [rewrite E; reflexivity | apply andb_false_r].
Qed.

Lemma clear_bit (w k : Z) :
  0 <= k -> Z.land w (Z.lnot (Z.shiftl 1 k)) = if Z.testbit w k then w - 2 ^ k else w.
Proof.
  intros Hk. rewrite Z.shiftl_1_l.
  assert (Hsplit : Z.land w (Z.lnot (2 ^ k)) + Z.land w (2 ^ k) = w).
  { rewrite Z.add_nocarry_lor.
    - apply Z.bits_inj'. intros n Hn.
      rewrite Z.lor_spec, !Z.land_spec, Z.lnot_spec, Z.pow2_bits_eqb by lia.
      destruct (Z.testbit w n), (k =? n); reflexivity.
    - apply Z.bits_inj'. intros n Hn.
      rewrite !Z.land_spec, Z.lnot_spec, Z.pow2_bits_eqb, Z.bits_0 by lia.
      destruct (Z.testbit w n), (k =? n); reflexivity. }
  assert (Hb : Z.land w (2 ^ k) = if Z.testbit w k then 2 ^ k else 0).
  { pose proof (land_bit w k Hk) as H. rewrite Z.shiftl_1_l in H. exact H. }
  destruct (Z.testbit w k); lia.
Qed.

Lemma testbit_lt_pow2 (w k n : Z) :
  0 <= w < 2 ^ n -> 0 <= k < n -> Z.testbit w k = false -> w + 2 ^ k < 2 ^ n.
Proof.
  intros Hw Hk Hb.
  assert (Hlor : Z.lor w (2 ^ k) = w + 2 ^ k).
  { pose proof (lor_bit w k ltac:(lia)) as H. rewrite Z.shiftl_1_l, Hb in H. exact H. }
  rewrite <- Hlor.
  assert (Hp : 0 < 2 ^ k) by (apply Z.pow_pos_nonneg; lia).
  assert (Hpos : 0 < Z.lor w (2 ^ k)) by lia.
  apply Z.log2_lt_pow2; [exact Hpos|].
  rewrite Z.log2_lor by lia. rewrite Z.log2_pow2 by lia.
  apply Z.max_lub_lt; [|lia].
  destruct (Z.eq_dec w 0) as [->|Hne]; [simpl; lia|].
  apply Z.log2_lt_pow2; lia.
Qed.

Lemma testbit_ge_pow2 (w k : Z) :
  0 <= w -> 0 <= k -> Z.testbit w k = true -> 2 ^ k <= w.
Proof.
  intros Hw Hk Hb.
  assert (H : 0 <= Z.land w (Z.lnot (Z.shiftl 1 k))).
  { apply Z.land_nonneg. left. exact Hw. }
  rewrite clear_bit, Hb in H by exact Hk. lia.
Qed.

(** The bits of a word that fits in [m] bits, and of a word cut to [m]
    bits. *)
Lemma bits_above (w m n : Z) :
  0 <= w < 2 ^ m -> m <= n -> Z.testbit w n = false.
Proof.
  intros Hw Hn.
  assert (0 <= m).
  { destruct (Z.lt_ge_cases m 0) as [Hm|Hm]; [|exact Hm].
    rewrite Z.pow_neg_r in Hw by exact Hm. lia. }
  rewrite <- (Z.mod_small w (2 ^ m)) by exact Hw.
  apply Z.mod_pow2_bits_high. lia.
Qed.

Lemma mod_pow2_bit (w m n : Z) :
  0 <= m -> 0 <= n -> Z.testbit (w mod 2 ^ m) n = (n <? m) && Z.testbit w n.
Proof.
  intros Hm Hn. destruct (Z.ltb_spec n m).
  - rewrite Z.mod_pow2_bits_low by lia. reflexivity.
  - rewrite Z.mod_pow2_bits_high by lia. reflexivity.
Qed.

Lemma kept_bits_le (sfx : long_suffix) (long_bits member_bits : Z) :
  kept_bits sfx long_bits member_bits <= member_bits.
Proof. destruct sfx; simpl; lia. Qed.

(** What [w & ~F] leaves of a word of [member_bits] bits: the word cut to
    its kept bits, without the flag. *)
Lemma flag_clear_kept (sfx : long_suffix) (long_bits member_bits w k : Z) :
  0 <= k -> 0 <= long_bits -> 0 <= member_bits -> 0 <= w < 2 ^ member_bits ->
  flag_clear sfx long_bits w (Z.shiftl 1 k)
  = Z.land (w mod 2 ^ kept_bits sfx long_bits member_bits) (Z.lnot (Z.shiftl 1 k)).
Proof.
  intros Hk Hl Hm Hw. unfold flag_clear.
  assert (HK : 0 <= kept_bits sfx long_bits member_bits) by (destruct sfx; simpl; lia).
  apply Z.bits_inj'. intros n Hn.
  rewrite !Z.land_spec, c_complement_bit, mod_pow2_bit by lia.
  rewrite Z.lnot_spec, Z.shiftl_1_l, Z.pow2_bits_eqb by lia.
  destruct (Z.ltb_spec n (kept_bits sfx long_bits member_bits)) as [Hlt|Hge].
  - destruct sfx; simpl in *; [reflexivity|].
    destruct (Z.ltb_spec n long_bits); [reflexivity | lia].
  - simpl. destruct sfx; simpl in *.
    + rewrite (bits_above w member_bits n) by lia. reflexivity.
    + destruct (Z.ltb_spec n long_bits); [|apply andb_false_r].
      rewrite (bits_above w member_bits n) by lia. reflexivity.
Qed.

(** One single-bit flag in a word of [member_bits] bits. *)
Lemma flag_word_ops (sfx : long_suffix) (long_bits member_bits w k : Z) :
  0 <= k < kept_bits sfx long_bits member_bits ->
  0 <= long_bits ->
  0 <= w < 2 ^ member_bits ->
  (0 <= flag_set w (Z.shiftl 1 k) < 2 ^ member_bits)
  /\ (0 <= flag_clear sfx long_bits w (Z.shiftl 1 k) < 2 ^ member_bits)
  /\ (flag_clear sfx long_bits w (Z.shiftl 1 k) <= w <= flag_set w (Z.shiftl 1 k))
  /\ flag_test (flag_set w (Z.shiftl 1 k)) (Z.shiftl 1 k) = true
  /\ flag_test (flag_clear sfx long_bits w (Z.shiftl 1 k)) (Z.shiftl 1 k) = false
  /\ flag_clear sfx long_bits (flag_set w (Z.shiftl 1 k)) (Z.shiftl 1 k)
     = flag_clear sfx long_bits w (Z.shiftl 1 k)
  /\ flag_clear sfx long_bits w (Z.shiftl 1 k)
     = Z.land (w mod 2 ^ kept_bits sfx long_bits member_bits) (Z.lnot (Z.shiftl 1 k))
  /\ (w < 2 ^ kept_bits sfx long_bits member_bits ->
      flag_set (flag_clear sfx long_bits w (Z.shiftl 1 k)) (Z.shiftl 1 k)
      = flag_set w (Z.shiftl 1 k)
      /\ (flag_test w (Z.shiftl 1 k) = false ->
          flag_clear sfx long_bits (flag_set w (Z.shiftl 1 k)) (Z.shiftl 1 k) = w)
      /\ (flag_test w (Z.shiftl 1 k) = true ->
          flag_set (flag_clear sfx long_bits w (Z.shiftl 1 k)) (Z.shiftl 1 k) = w)).
Proof.
  intros Hk Hl Hw.
  set (K := kept_bits sfx long_bits member_bits) in *.
  assert (HKm : K <= member_bits) by apply kept_bits_le.
  assert (Hm : 0 <= member_bits) by lia.
  assert (Hp : 0 < 2 ^ k) by (apply Z.pow_pos_nonneg; lia).
  assert (HpK : 0 < 2 ^ K) by (apply Z.pow_pos_nonneg; lia).
  assert (Hset : flag_set w (Z.shiftl 1 k) = if Z.testbit w k then w else w + 2 ^ k)
    by (apply lor_bit; lia).
  assert (Hset_range : 0 <= flag_set w (Z.shiftl 1 k) < 2 ^ member_bits).
  { rewrite Hset. destruct (Z.testbit w k) eqn:E; [lia|].
    pose proof (testbit_lt_pow2 w k member_bits Hw ltac:(lia) E). lia. }
  assert (Hclr : flag_clear sfx long_bits w (Z.shiftl 1 k)
                 = Z.land (w mod 2 ^ K) (Z.lnot (Z.shiftl 1 k)))
    by (apply flag_clear_kept; lia).
  assert (Hw' : 0 <= w mod 2 ^ K < 2 ^ K) by (apply Z.mod_pos_bound; lia).
  assert (Hle : w mod 2 ^ K <= w) by (apply Z.mod_le; lia).
  assert (Hbit : Z.testbit (w mod 2 ^ K) k = Z.testbit w k)
    by (apply Z.mod_pow2_bits_low; lia).
  assert (Hclr_val : flag_clear sfx long_bits w (Z.shiftl 1 k)
                     = if Z.testbit w k then w mod 2 ^ K - 2 ^ k else w mod 2 ^ K).
  { rewrite Hclr, clear_bit, Hbit by lia. reflexivity. }
  assert (Hclr_range : 0 <= flag_clear sfx long_bits w (Z.shiftl 1 k) <= w mod 2 ^ K).
  { rewrite Hclr_val. destruct (Z.testbit w k) eqn:E; [|lia].
    pose proof (testbit_ge_pow2 (w mod 2 ^ K) k ltac:(lia) ltac:(lia) Hbit). lia. }
  assert (Hcs : flag_clear sfx long_bits (flag_set w (Z.shiftl 1 k)) (Z.shiftl 1 k)
                = flag_clear sfx long_bits w (Z.shiftl 1 k)).
  { rewrite (flag_clear_kept sfx long_bits member_bits (flag_set w (Z.shiftl 1 k)))
      by (first [exact Hset_range | lia]).
    rewrite Hclr. fold K. unfold flag_set.
    apply Z.bits_inj'. intros n Hn.
    rewrite !Z.land_spec, !mod_pow2_bit, Z.lor_spec, Z.lnot_spec by lia.
    rewrite Z.shiftl_1_l, Z.pow2_bits_eqb by lia.
    destruct (n <? K), (Z.testbit w n), (k =? n); reflexivity. }
  split; [exact Hset_range|].
  split; [lia|].
  split; [rewrite Hset; destruct (Z.testbit w k); lia|].
  split; [apply flag_set_same; lia|].
  split; [apply flag_clear_same; lia|].
  split; [exact Hcs|].
  split; [exact Hclr|].
  intros HwK.
  assert (Hsmall : w mod 2 ^ K = w) by (apply Z.mod_small; lia).
  assert (Hcbit : Z.testbit (flag_clear sfx long_bits w (Z.shiftl 1 k)) k = false).
  { rewrite <- flag_test_bit by lia. apply flag_clear_same; lia. }
  assert (Hsc : flag_set (flag_clear sfx long_bits w (Z.shiftl 1 k)) (Z.shiftl 1 k)
                = flag_set w (Z.shiftl 1 k)).
  { unfold flag_set at 1. rewrite lor_bit, Hcbit, Hclr_val, Hset, Hsmall by lia.
    destruct (Z.testbit w k); lia. }
  rewrite flag_test_bit by lia.
  split; [exact Hsc|]. split.
  - intros E. rewrite Hcs, Hclr_val, E, Hsmall. reflexivity.
  - intros E. rewrite Hsc, Hset, E. reflexivity.
Qed.

(** X5.  For every flag macro of the header, on an ABI with a 32-bit or a
    64-bit [long], and every value of the member the macro is a flag of
    (32 bits for the flags of a BO and of a bind, 64 bits for the flags of
    a render descriptor): [w | F] and [w & ~F] stay within the width of the
    member, [w & ~F <= w <= w | F], the flag tests as set after a set and
    as clear after a clear, and clearing after setting is clearing.
    [w & ~F] is the word cut to its kept bits, without the flag: all bits of
    the member are kept, except that with a 32-bit [long] the
    [ASAHI_CMDBUF_*] macros ([1UL << n]) keep only the bits 0 to 31 of the
    64-bit flags word.  On words below that bound setting after clearing is
    setting, and a set undoes a clear and a clear undoes a set of a flag
    that was set or clear before. *)
Theorem flags_stay_in_their_member (f : Z) (sfx : long_suffix)
    (ms : list (string * ctype)) (name : string) (long_bits w : Z) :
  In (f, sfx, ms, name) header_flags ->
  In long_bits long_widths ->
  0 <= w < 2 ^ member_bits ms name ->
  (0 <= flag_set w f < 2 ^ member_bits ms name)
  /\ (0 <= flag_clear sfx long_bits w f < 2 ^ member_bits ms name)
  /\ (flag_clear sfx long_bits w f <= w <= flag_set w f)
  /\ flag_test (flag_set w f) f = true
  /\ flag_test (flag_clear sfx long_bits w f) f = false
  /\ flag_clear sfx long_bits (flag_set w f) f = flag_clear sfx long_bits w f
  /\ flag_clear sfx long_bits w f
     = Z.land (w mod 2 ^ kept_bits sfx long_bits (member_bits ms name)) (Z.lnot f)
  /\ (w < 2 ^ kept_bits sfx long_bits (member_bits ms name) ->
      flag_set (flag_clear sfx long_bits w f) f = flag_set w f
      /\ (flag_test w f = false -> flag_clear sfx long_bits (flag_set w f) f = w)
      /\ (flag_test w f = true -> flag_set (flag_clear sfx long_bits w f) f = w))
  /\ kept_bits sfx long_bits (member_bits ms name)
     = (if (long_bits =? 32) && (member_bits ms name =? 64) then 32 else member_bits ms name).
Proof.
  intros Hin Hl. apply long_widths_cases in Hl. simpl in Hin.
  destruct Hin as [H|[H|[H|[H|[H|[H|[H|[]]]]]]]]; injection H as <- <- <- <-; intros Hw;
    match type of Hw with
    | context [member_bits ?m ?n] =>
        let b := eval vm_compute in (member_bits m n) in
        change (member_bits m n) with b in *
    end;
    match goal with
    | |- context [flag_set w ?F] =>
        let j := eval vm_compute in (Z.log2 F) in
        change F with (Z.shiftl 1 j)
    end;
    destruct Hl as [-> | ->];
    match goal with
    | |- context [flag_clear ?s ?l _ (Z.shiftl 1 ?j)] =>
        match type of Hw with
        | _ <= _ < 2 ^ ?b =>
            assert (Hk : 0 <= j < kept_bits s l b) by (vm_compute; split; congruence);
            destruct (flag_word_ops s l b w j Hk ltac:(lia) Hw)
              as (H1 & H2 & H3 & H4 & H5 & H6 & H7 & H8)
        end
    end;
    do 7 (split; [assumption|]);
    (split; [exact H8 | reflexivity]).
Qed.

Lemma flags_stay_in_their_member_witness :
  flag_set 0xFFFFFFFD ASAHI_BIND_WRITE < 2 ^ 32
  /\ flag_clear SuffixL 32 (flag_set 1 ASAHI_BIND_WRITE) ASAHI_BIND_WRITE = 1
  /\ flag_clear SuffixUL 32 0xFFFFFFFF00000005 ASAHI_CMDBUF_MEMORYLESS_RTS_USED = 1
  /\ flag_clear SuffixUL 64 0xFFFFFFFF00000005 ASAHI_CMDBUF_MEMORYLESS_RTS_USED
     = 0xFFFFFFFF00000001.
Proof.
  split; [|split; [|split]].
  - apply (flags_stay_in_their_member ASAHI_BIND_WRITE SuffixL
             (members drm_asahi_gem_bind_fields) "flags" 32 0xFFFFFFFD);
      [simpl; tauto | simpl; tauto | vm_compute; split; congruence].
  - apply (flags_stay_in_their_member ASAHI_BIND_WRITE SuffixL
             (members drm_asahi_gem_bind_fields) "flags" 32 1);
      [simpl; tauto | simpl; tauto | vm_compute; split; congruence
       | vm_compute; reflexivity | reflexivity].
  - destruct (flags_stay_in_their_member ASAHI_CMDBUF_MEMORYLESS_RTS_USED SuffixUL
                drm_asahi_cmd_render_members "flags" 32 0xFFFFFFFF00000005)
      as (_ & _ & _ & _ & _ & _ & H & _);
      [simpl; tauto | simpl; tauto | vm_compute; split; congruence |].
    rewrite H. reflexivity.
  - destruct (flags_stay_in_their_member ASAHI_CMDBUF_MEMORYLESS_RTS_USED SuffixUL
                drm_asahi_cmd_render_members "flags" 64 0xFFFFFFFF00000005)
      as (_ & _ & _ & _ & _ & _ & H & _);
      [simpl; tauto | simpl; tauto | vm_compute; split; congruence |].
    rewrite H. reflexivity.
Defined.
